(** * Personal quant trading system: shallow embedding and verified properties

  Source: [quant-agents/personal_trading_system.py].

  Conventions of the embedding.
  - A Python [float] is an exact rational [Q]; rounding of binary
    floating point is not represented.  Where the source can produce or
    test for a non-finite value (pandas division, [np.isnan]) the type
    [fval] adds the two infinities and NaN with Python's comparison rules.
  - A Python [int] is a [Z].
  - A [dict] read with [.get] is a [gmap string _]; a [dict] whose
    iteration order is observed is an association list ([odict]).
  - An exception is a value of [exn]; a call that may raise returns
    [res A], a call that also touches the brokerage or the clock runs in
    the state-and-error monad [M]. *)

From stdpp Require Import gmap strings list.
From Stdlib Require Import ZArith QArith Qround Qminmax Qabs Lqa Lia.

Set Warnings "-register-all".
Open Scope Q_scope.

(** ** Python numerics *)

Module Py.

Definition Qltb (x y : Q) : bool := negb (Qle_bool y x).
Definition Qgtb (x y : Q) : bool := Qltb y x.
Definition Qleb (x y : Q) : bool := Qle_bool x y.

(** [min(a, b)]: the first argument unless a later one is smaller. *)
Definition min2 (a b : Q) : Q := if Qltb b a then b else a.
Definition min3 (a b c : Q) : Q := min2 (min2 a b) c.
(** [max(a, b)]: the first argument unless a later one is larger. *)
Definition max2 (a b : Q) : Q := if Qgtb b a then b else a.

(** [int(x)] on a float truncates toward zero. *)
Definition int (x : Q) : Z := if Qle_bool 0 x then Qfloor x else Qceiling x.

(** Floats that may be non-finite. *)
Inductive fval : Type :=
| Fin (q : Q)
| PInf
| NInf
| NaN.

(** [a < b] on floats: false as soon as one side is NaN. *)
Definition fltb (a b : fval) : bool :=
  match a, b with
  | Fin x, Fin y => Qltb x y
  | NInf, Fin _ | NInf, PInf | Fin _, PInf => true
  | _, _ => false
  end.
Definition fgtb (a b : fval) : bool := fltb b a.

Definition isnan (a : fval) : bool :=
  match a with NaN => true | _ => false end.

(** IEEE arithmetic on [fval] as numpy performs it: no exception, a zero
    divisor gives an infinity or NaN.  The sign of zero is not tracked. *)
Definition fneg (a : fval) : fval :=
  match a with
  | Fin x => Fin (- x)
  | PInf => NInf
  | NInf => PInf
  | NaN => NaN
  end.

Definition fadd (a b : fval) : fval :=
  match a, b with
  | NaN, _ | _, NaN => NaN
  | Fin x, Fin y => Fin (x + y)
  | PInf, NInf | NInf, PInf => NaN
  | PInf, _ | _, PInf => PInf
  | NInf, _ | _, NInf => NInf
  end.

Definition fsub (a b : fval) : fval := fadd a (fneg b).

Definition fdivide (a b : fval) : fval :=
  match a, b with
  | NaN, _ | _, NaN => NaN
  | Fin x, Fin y =>
      if Qeq_bool y 0
      then if Qeq_bool x 0 then NaN else if Qltb 0 x then PInf else NInf
      else Fin (x / y)
  | Fin _, _ => Fin 0
  | _, Fin y => if Qltb y 0 then fneg a else a
  | _, _ => NaN
  end.

(** [np.clip(a, lo, hi)]; NaN passes through. *)
Definition fclip (a : fval) (lo hi : Q) : fval :=
  match a with
  | Fin x => Fin (if Qltb x lo then lo else if Qltb hi x then hi else x)
  | PInf => Fin hi
  | NInf => Fin lo
  | NaN => NaN
  end.

(** Exceptions.  [BrokerError] and [DataError] stand for whatever the
    brokerage or market-data client raises; all constructors are
    subclasses of Python's [Exception]. *)
Inductive exn : Type :=
| BrokerError (msg : string)
| DataError (msg : string)
| KeyError (key : string)
| NameError (name : string)
| ZeroDivisionError.

(** [str(e)] *)
Definition str (e : exn) : string :=
  match e with
  | BrokerError m | DataError m => m
  | KeyError k => "'" +:+ k +:+ "'"
  | NameError n => "name '" +:+ n +:+ "' is not defined"
  | ZeroDivisionError => "float division by zero"
  end.

Definition res (A : Type) : Type := exn + A.

Definition rbind {A B} (m : res A) (k : A -> res B) : res B :=
  match m with inl e => inl e | inr a => k a end.

(** An insertion-ordered dict: assignment to an existing key keeps its
    place, a new key goes last. *)
Definition odict (V : Type) : Type := list (string * V).

Fixpoint odict_set {V} (k : string) (v : V) (d : odict V) : odict V :=
  match d with
  | [] => [(k, v)]
  | (k', v') :: d' =>
      if String.eqb k k' then (k, v) :: d' else (k', v') :: odict_set k v d'
  end.

(** [deque(maxlen=n).append(x)]: the oldest element is dropped once the
    buffer is full. *)
Definition deque_append {A} (maxlen : Z) (x : A) (d : list A) : list A :=
  let d' := d ++ [x] in
  drop (length d' - Z.to_nat maxlen) d'.

End Py.

Export Py.

Declare Scope res_scope.
Delimit Scope res_scope with res.
Notation "x <- m ;; k" := (rbind m (fun x => k))
(at level 100, m at next level, right associativity) : res_scope.

(** ** Feature / signal engine *)

Module Alpha.

Abbreviation features := (gmap string fval).

(** [d.get(k, dflt)] *)
Definition get (d : features) (k : string) (dflt : fval) : fval :=
  default dflt (d !! k).

(** *** Technical indicators over a price series *)

Definition Qsum (l : list Q) : Q := fold_left Qplus l 0.

(** [s.iloc[-k:]] *)
Definition last_n {A} (k : nat) (l : list A) : list A := drop (length l - k) l.

(** [prices.diff()] without its leading NaN. *)
Fixpoint diff (prices : list Q) : list Q :=
  match prices with
  | a :: (b :: _) as rest => (b - a) :: diff rest
  | _ => []
  end.

(** Last value of [s.rolling(window).mean()] for a series without NaN:
    NaN until the window is full. *)
Definition rolling_mean_last (window : nat) (s : list Q) : fval :=
  if (length s <? window)%nat || (window =? 0)%nat then NaN
  else Fin (Qsum (last_n window s) / inject_Z (Z.of_nat window)).

Definition calculate_rsi (prices : list Q) (period : nat) : fval :=
  if (length prices <? period + 1)%nat then Fin 50.0
  else
    (* the NaN heading [delta] fails both tests and is replaced by 0 *)
    let delta := diff prices in
    let gains := 0 :: map (fun d => if Qgtb d 0 then d else 0) delta in
    let losses := 0 :: map (fun d => - (if Qltb d 0 then d else 0)) delta in
    let gain := rolling_mean_last period gains in
    let loss := rolling_mean_last period losses in
    let rs := fdivide gain loss in
    let rsi := fsub (Fin 100) (fdivide (Fin 100) (fadd (Fin 1) rs)) in
    if negb (isnan rsi) then rsi else Fin 50.0.

(** [s.ewm(span=span, adjust=False).mean()] *)
Fixpoint ewm_from (alpha prev : Q) (s : list Q) : list Q :=
  match s with
  | [] => []
  | x :: rest =>
      let y := (1 - alpha) * prev + alpha * x in
      y :: ewm_from alpha y rest
  end.

Definition ewm_mean (span : Z) (s : list Q) : list Q :=
  match s with
  | [] => []
  | x :: rest => x :: ewm_from (2 / (inject_Z span + 1)) x rest
  end.

Fixpoint zip_sub (a b : list Q) : list Q :=
  match a, b with
  | x :: a', y :: b' => (x - y) :: zip_sub a' b'
  | _, _ => []
  end.

Definition calculate_macd_signal (prices : list Q) : Q :=
  if (length prices <? 26)%nat then 0.0
  else
    let exp1 := ewm_mean 12 prices in
    let exp2 := ewm_mean 26 prices in
    let macd := zip_sub exp1 exp2 in
    let signal := ewm_mean 9 macd in
    List.last (zip_sub macd signal) 0.

Section Bollinger.
(** [np.sqrt] on a non-negative float. *)
Variable sqrt : Q -> Q.

(** Last value of [s.rolling(window).std()], the sample deviation. *)
Definition rolling_std_last (window : nat) (s : list Q) : fval :=
  if (length s <? window)%nat || (window <=? 1)%nat then NaN
  else
    let w := last_n window s in
    let n := inject_Z (Z.of_nat window) in
    let mean := Qsum w / n in
    Fin (sqrt (Qsum (map (fun x => (x - mean) ^ 2) w) / (n - 1))).

Definition fscale (k : Q) (a : fval) : fval :=
  match a with
  | Fin x => Fin (x * k)
  | _ => a
  end.

Definition calculate_bollinger_position (prices : list Q) (period : nat) : fval :=
  if (length prices <? period)%nat then Fin 0.5
  else
    let sma := rolling_mean_last period prices in
    let std := rolling_std_last period prices in
    let upper_band := fadd sma (fscale 2 std) in
    let lower_band := fsub sma (fscale 2 std) in
    let current_price := List.last prices 0 in
    let position :=
      fdivide (fsub (Fin current_price) lower_band) (fsub upper_band lower_band) in
    fclip position 0 1.
End Bollinger.

(** *** Scoring *)

(** The two locals [score] and [confidence] of [ml_predict]. *)
Record tally : Type := { score : Z; raw_confidence : Q }.

Definition bump (ds : Z) (dc : Q) (t : tally) : tally :=
  {| score := (score t + ds)%Z; raw_confidence := raw_confidence t + dc |}.

Definition ml_tally (micro_features tech_signals : features) : tally :=
  let t := {| score := 0; raw_confidence := 0.5 |} in
  let t := if fltb (get micro_features "kyle_lambda" (Fin 0)) (Fin 0)
           then bump 1 0.1 t else t in
  let t := if fltb (get micro_features "vpin" (Fin 0)) (Fin 0.3)
           then bump 1 0.1 t else t in
  let t := if fltb (get tech_signals "rsi" (Fin 50)) (Fin 30)
           then bump 2 0.2 t
           else if fgtb (get tech_signals "rsi" (Fin 50)) (Fin 70)
                then bump (-2) 0.2 t else t in
  let t := if fgtb (get tech_signals "macd_signal" (Fin 0)) (Fin 0)
           then bump 1 0.1 t else t in
  t.

Record Prediction : Type := {
  direction : Z;
  confidence : Q;
  expected_return : Q;
  holding_period : string
}.

Definition ml_predict (micro_features tech_signals : features) : Prediction :=
  let t := ml_tally micro_features tech_signals in
  let direction :=
    if (1 <? score t)%Z then 1%Z
    else if (score t <? -1)%Z then (-1)%Z
    else 0%Z in
  {| direction := direction;
     confidence := min2 (raw_confidence t) 0.9;
     expected_return := inject_Z direction * raw_confidence t * 0.02;
     holding_period := if Qgtb (raw_confidence t) 0.7 then "1D" else "4H" |}.

(** The combined signal stored per symbol by [generate_signals]. *)
Record Signal : Type := {
  symbol : string;
  sig_direction : Z;
  sig_confidence : Q;
  sig_expected_return : Q;
  sig_holding_period : string;
  sig_microstructure : features;
  sig_technical : features;
  sig_timestamp : Z
}.

(** What C10 asks of a signal. *)
Definition signal_in_range (s : Signal) : Prop :=
  0.5 <= sig_confidence s <= 0.9
  /\ (sig_direction s = (-1)%Z \/ sig_direction s = 0%Z \/ sig_direction s = 1%Z).

Section GenerateSignals.
  (** The two feature computations read bars from the market-data client
      and reduce them with pandas statistics; the signal fields depend on
      them only through the dicts they return. *)
Variable calculate_microstructure_alpha : string -> res features.
Variable calculate_technical_signals : string -> res features.
  (** [datetime.now()] at the moment a signal is assembled. *)
Variable now : Z.

Definition signal_for (sym : string) : res Signal :=
    (micro_features <- calculate_microstructure_alpha sym ;;
     tech_signals <- calculate_technical_signals sym ;;
     let ml_signal := ml_predict micro_features tech_signals in
     inr {| symbol := sym;
            sig_direction := direction ml_signal;
            sig_confidence := confidence ml_signal;
            sig_expected_return := expected_return ml_signal;
            sig_holding_period := holding_period ml_signal;
            sig_microstructure := micro_features;
            sig_technical := tech_signals;
            sig_timestamp := now |})%res.

  (** One pass of the loop body: a failing symbol is logged and skipped.
      The state is the result dict and the [signals_history] deque. *)
Definition generate_step (st : odict Signal * list Signal) (sym : string)
    : odict Signal * list Signal :=
    match signal_for sym with
    | inr s => (odict_set sym s (fst st), deque_append 1000 s (snd st))
    | inl _ => st
    end.

Definition generate_signals (history : list Signal) (universe : list string)
    : odict Signal * list Signal :=
    fold_left generate_step universe ([], history).
End GenerateSignals.

(** The signals computed for a universe, in order, failures left out. *)
Definition computed_signals (cm ct : string -> res features) (now : Z)
    (universe : list string) : list Signal :=
  omap (fun sym => match signal_for cm ct now sym with
                   | inr s => Some s
                   | inl _ => None
                   end) universe.

(** *** Feature dicts from bars *)

Record Bar : Type := {
  bar_close : Q;
  bar_high : Q;
  bar_low : Q;
  bar_volume : Q;
  bar_trade_count : Q;
  bar_vwap : Q
}.

Inductive TimeFrame : Type := Minute | Day.

(** [StockHistoricalDataClient.get_stock_bars] for one symbol, one time
    frame and [limit=100]: the [data] dict of the answer, or the exception
    raised. *)
Record DataClient : Type := {
  get_stock_bars : string -> TimeFrame -> res (gmap string (list Bar))
}.

(** [s.pct_change()]: [s / s.shift(1) - 1], NaN in first place. *)
Fixpoint pct_change_from (prev : Q) (s : list Q) : list fval :=
  match s with
  | [] => []
  | x :: rest =>
      fsub (fdivide (Fin x) (Fin prev)) (Fin 1) :: pct_change_from x rest
  end.

Definition pct_change (s : list Q) : list fval :=
  match s with
  | [] => []
  | x :: rest => NaN :: pct_change_from x rest
  end.

(** The four locals of the bucket loop of [calculate_vpin]. *)
Record vpin_state : Type := {
  current_bucket_volume : Q;
  buy_volume : Q;
  sell_volume : Q;
  vpin_values : list Q
}.

(** One row: [volume], [buy_volume], [sell_volume]. *)
Definition vpin_step (bucket_size : Q) (st : vpin_state) (row : Q * Q * Q)
  : vpin_state :=
  let '(volume, buy, sell) := row in
  let current := current_bucket_volume st + volume in
  let buy_volume := buy_volume st + buy in
  let sell_volume := sell_volume st + sell in
  if Qleb bucket_size current then
    {| current_bucket_volume := 0;
       buy_volume := 0;
       sell_volume := 0;
       vpin_values :=
         if Qgtb (buy_volume + sell_volume) 0
         then vpin_values st
              ++ [Qabs (buy_volume - sell_volume) / (buy_volume + sell_volume)]
         else vpin_values st |}
  else
    {| current_bucket_volume := current;
       buy_volume := buy_volume;
       sell_volume := sell_volume;
       vpin_values := vpin_values st |}.

Definition vpin_rows (df : list Bar) : list (Q * Q * Q) :=
  map (fun '(bar, price_change) =>
         (bar_volume bar,
          bar_volume bar * (if fgtb price_change (Fin 0) then 1 else 0),
          bar_volume bar * (if fltb price_change (Fin 0) then 1 else 0)))
      (zip df (pct_change (map bar_close df))).

(** [np.mean] of a non-empty list. *)
Definition mean (l : list Q) : Q := Qsum l / inject_Z (Z.of_nat (length l)).

Definition calculate_vpin (df : list Bar) : Q :=
  if (length df <? 50)%nat then 0.0
  else
    let bucket_size := Qsum (map bar_volume df) / 50 in
    let final :=
      fold_left (vpin_step bucket_size) (vpin_rows df)
                {| current_bucket_volume := 0; buy_volume := 0;
                   sell_volume := 0; vpin_values := [] |} in
    match vpin_values final with
    | [] => 0.0
    | values => mean values
    end.

(** What the bucket loop maintains when volumes are not negative. *)
Definition vpin_invariant (st : vpin_state) : Prop :=
  0 <= buy_volume st /\ 0 <= sell_volume st
  /\ Forall (fun v => 0 <= v <= 1) (vpin_values st).

(** [s.iloc[-k]] for a series of at least [k] elements. *)
Definition iloc_back (k : nat) (s : list Q) : Q := nth (length s - k) s 0.

Section FeatureDicts.
Variable data_client : DataClient.
(** The regression, covariance and correlation features and the rolling
    volume trend are pandas reductions of the frame; each yields a float or
    raises. *)
Variable calculate_kyle_lambda : list Bar -> res fval.
Variable calculate_roll_spread : list Bar -> res fval.
Variable calculate_amihud_illiquidity : list Bar -> res fval.
Variable estimate_price_impact : list Bar -> res fval.
Variable volume_trend : list Bar -> res fval.
(** [np.sqrt], used by the rolling standard deviation. *)
Variable sqrt : Q -> Q.

(** Any exception ends in the [except] branch, which returns [{}]. *)
Definition calculate_microstructure_alpha (sym : string) : features :=
  match get_stock_bars data_client sym Minute with
  | inl _ => ∅
  | inr data =>
      match data !! sym with
      | None => ∅
      | Some df =>
          if (length df <? 10)%nat then ∅
          else
            let spread := mean (map (fun bar => bar_high bar - bar_low bar) df) in
            let volume_imbalance := calculate_vpin df in
            match (kyle_lambda <- calculate_kyle_lambda df ;;
                   roll_spread <- calculate_roll_spread df ;;
                   amihud_illiquidity <- calculate_amihud_illiquidity df ;;
                   price_impact <- estimate_price_impact df ;;
                   inr ({[ "spread" := Fin spread;
                           "volume_imbalance" := Fin volume_imbalance;
                           "kyle_lambda" := kyle_lambda;
                           "roll_spread" := roll_spread;
                           "amihud_illiquidity" := amihud_illiquidity;
                           "price_impact" := price_impact ]} : features))%res
            with
            | inl _ => ∅
            | inr features => features
            end
      end
  end.

Definition calculate_technical_signals (sym : string) : features :=
  match get_stock_bars data_client sym Day with
  | inl _ => ∅
  | inr data =>
      match data !! sym with
      | None => ∅
      | Some df =>
          if (length df <? 20)%nat then ∅
          else
            let close := map bar_close df in
            match (trend <- volume_trend df ;;
                   inr ({[ "rsi" := calculate_rsi close 14;
                           "macd_signal" := Fin (calculate_macd_signal close);
                           "bb_position" := calculate_bollinger_position sqrt close 20;
                           "volume_trend" := trend;
                           "momentum" :=
                             fscale 100
                               (fsub (fdivide (Fin (iloc_back 1 close))
                                              (Fin (iloc_back 20 close)))
                                     (Fin 1)) ]} : features))%res
            with
            | inl _ => ∅
            | inr features => features
            end
      end
  end.

(** [generate_signals] with the engine's own feature computations. *)
Definition engine_generate_signals (now : Z) (history : list Signal)
    (universe : list string) : odict Signal * list Signal :=
  generate_signals (fun sym => inr (calculate_microstructure_alpha sym))
                   (fun sym => inr (calculate_technical_signals sym))
                   now history universe.
End FeatureDicts.

End Alpha.

(** ** Brokerage port *)

Module Brokerage.

Record Account : Type := {
  equity : Q;
  cash : Q;
  buying_power : Q;
  pattern_day_trader : bool
}.

Record Position : Type := {
  pos_symbol : string;
  current_price : Q;
  market_value : Q;
  qty : Q;
  cost_basis : Q
}.

Inductive Side : Type := buy | sell.

Definition Side_eqb (a b : Side) : bool :=
  match a, b with
  | buy, buy | sell, sell => true
  | _, _ => false
  end.

(** [MarketOrderRequest] and [LimitOrderRequest]. *)
Record OrderRequest : Type := {
  req_symbol : string;
  req_qty : Z;
  req_side : Side;
  req_time_in_force : string;
  req_limit_price : option Q
}.

(** The read side of [TradingClient]: what each call answers during one
    pass of an engine, either a value or the exception it raises. *)
Record TradingClient : Type := {
  get_account : res Account;
  get_all_positions : res (list Position);
  get_position : string -> res Position;
  (** [submit_order], given the requests already submitted, answers with
      the id of the new broker order or raises. *)
  submit_order : list OrderRequest -> OrderRequest -> res string
}.

End Brokerage.

(** ** Risk engine *)

Module Risk.
Import Brokerage.

Record Order : Type := {
  symbol : string;
  quantity : Z;
  side : Side;
  type : string;
  time_in_force : string;
  signal : Alpha.Signal
}.

Definition set_quantity (o : Order) (q : Z) : Order :=
  {| symbol := symbol o; quantity := q; side := side o; type := type o;
     time_in_force := time_in_force o; signal := signal o |}.

Record RiskMetrics : Type := {
  var_95 : Q;
  var_99 : Q;
  expected_shortfall : Q;
  current_leverage : Q;
  concentration_risk : Q;
  correlation_risk : Q
}.

Record RiskManagementEngine : Type := {
  trading_client : TradingClient;
  max_position_size : Q;
  max_leverage : Q;
  max_drawdown : Q;
  var_confidence : Q
}.

(** [__init__] *)
Definition init (client : TradingClient) : RiskManagementEngine :=
  {| trading_client := client;
     max_position_size := 0.1;
     max_leverage := 2.0;
     max_drawdown := 0.15;
     var_confidence := 0.99 |}.

(** Float division raises on a zero divisor. *)
Definition fdiv (a b : Q) : res Q :=
  if Qeq_bool b 0 then inl ZeroDivisionError else inr (a / b).

Definition calculate_kelly_fraction (expected_return win_probability : Q) : Q :=
  if Qleb expected_return 0 || Qleb win_probability 0.5 then 0.0
  else
    let loss_probability := 1 - win_probability in
    let win_loss_ratio := 2.0 in
    let kelly := win_probability - (loss_probability / win_loss_ratio) in
    max2 0 (min2 (kelly * 0.25) 0.1).

(** The bare [except:] turns every failure of the position lookup into the
    constant 100.0. *)
Definition get_current_price (self : RiskManagementEngine) (sym : string) : Q :=
  match get_position (trading_client self) sym with
  | inr position => current_price position
  | inl _ => 100.0
  end.

Section PortfolioRisk.
(** [portfolio_volatility / np.sqrt(252)]; the square root is irrational
    and only scales the value-at-risk figures. *)
Variable daily_vol : Q.

Definition calculate_portfolio_risk (self : RiskManagementEngine) : res RiskMetrics :=
  (positions <- get_all_positions (trading_client self) ;;
   match positions with
   | [] =>
       inr {| var_95 := 0; var_99 := 0; expected_shortfall := 0;
              current_leverage := 0; concentration_risk := 0;
              correlation_risk := 0 |}
   | _ =>
       let position_values : odict Q :=
         fold_left (fun d p => odict_set (pos_symbol p) (market_value p) d)
                   positions [] in
       let total_value :=
         fold_left (fun t p => t + Qabs (market_value p)) positions 0 in
       let concentration_risk :=
         if Qgtb total_value 0
         then Alpha.Qsum (map (fun kv => (Qabs (snd kv) / total_value) ^ 2) position_values)
         else 0 in
       account <- get_account (trading_client self) ;;
       leverage <- fdiv total_value (equity account) ;;
       inr {| var_95 := total_value * 1.645 * daily_vol;
              var_99 := total_value * 2.326 * daily_vol;
              expected_shortfall := total_value * 2.665 * daily_vol;
              current_leverage := leverage;
              concentration_risk := concentration_risk;
              correlation_risk := 0.5 |}
   end)%res.
End PortfolioRisk.

(** The leverage branch rewrites every order's quantity, the concentration
    branch keeps the first three orders, and orders left with no quantity
    are dropped.  The product of a quantity and 0.5 is exact in binary
    floating point for quantities up to 2^53; beyond that the exact product
    taken here can differ from the float by the rounding of the quantity. *)
Definition apply_risk_constraints (self : RiskManagementEngine)
    (orders : list Order) (risk_metrics : RiskMetrics) : list Order :=
  let orders :=
    if Qgtb (current_leverage risk_metrics) (max_leverage self * 0.8)
    then let reduction_factor := 0.5 in
         map (fun order =>
                set_quantity order (int (inject_Z (quantity order) * reduction_factor)))
             orders
    else orders in
  let orders :=
    if Qgtb (concentration_risk risk_metrics) 0.3 then take 3 orders else orders in
  filter (fun order => (0 < quantity order)%Z) orders.

(** The body of the sizing loop for one retained signal: the orders it
    appends (none or one), or the exception of a zero price. *)
Definition size_signal (self : RiskManagementEngine)
    (buying_power portfolio_value : Q) (sym : string) (sg : Alpha.Signal)
  : res (list Order) :=
  if (Alpha.sig_direction sg =? 0)%Z then inr []
  else
    let kelly_fraction :=
      calculate_kelly_fraction (Alpha.sig_expected_return sg) (Alpha.sig_confidence sg) in
    let position_size :=
      min3 (kelly_fraction * portfolio_value)
           (max_position_size self * portfolio_value)
           (buying_power * 0.9) in
    if Qgtb position_size 100 then
      (ratio <- fdiv position_size (get_current_price self sym) ;;
       let quantity := int ratio in
       if (0 <? quantity)%Z then
         inr [ {| symbol := sym;
                  quantity := quantity;
                  side := if (0 <? Alpha.sig_direction sg)%Z then buy else sell;
                  type := "limit";
                  time_in_force := "day";
                  signal := sg |} ]
       else inr [])%res
    else inr [].

Fixpoint size_signals (self : RiskManagementEngine)
    (buying_power portfolio_value : Q) (signals : odict Alpha.Signal)
    (orders : list Order) : res (list Order) :=
  match signals with
  | [] => inr orders
  | (sym, sg) :: rest =>
      (new <- size_signal self buying_power portfolio_value sym sg ;;
       size_signals self buying_power portfolio_value rest (orders ++ new))%res
  end.

Definition optimize_portfolio (daily_vol : Q) (self : RiskManagementEngine)
    (signals : odict Alpha.Signal) : res (list Order) :=
  (account <- get_account (trading_client self) ;;
   let buying_power := buying_power account in
   let portfolio_value := equity account in
   risk_metrics <- calculate_portfolio_risk daily_vol self ;;
   let high_confidence_signals :=
     filter (fun kv => Qgtb (Alpha.sig_confidence (snd kv)) 0.6 = true) signals in
   orders <- size_signals self buying_power portfolio_value high_confidence_signals [] ;;
   inr (apply_risk_constraints self orders risk_metrics))%res.

(** The sizing invariant of C2 for one order: its notional at the price the
    engine used is within the per-position cap and the buying power. *)
Definition within_caps (self : RiskManagementEngine) (account : Account)
    (order : Order) : Prop :=
  inject_Z (quantity order) * get_current_price self (symbol order)
  <= min2 (0.1 * equity account) (buying_power account).

(** Two signal dicts that differ at most in how strong their signals
    above the confidence gate are: the same keys in the same order with the
    same directions, and under each key either the same signal or two
    signals with confidence above 0.6 and a positive expected return. *)
Definition same_but_strength (signals signals' : odict Alpha.Signal) : Prop :=
  Forall2 (fun kv kv' =>
             fst kv = fst kv'
             /\ Alpha.sig_direction (snd kv) = Alpha.sig_direction (snd kv')
             /\ (snd kv = snd kv'
                 \/ (0.6 < Alpha.sig_confidence (snd kv)
                     /\ 0 < Alpha.sig_expected_return (snd kv)
                     /\ 0.6 < Alpha.sig_confidence (snd kv')
                     /\ 0 < Alpha.sig_expected_return (snd kv'))))
          signals signals'.

(** Two orders that agree on everything but the signal they carry. *)
Definition same_terms (o o' : Order) : Prop :=
  symbol o = symbol o'
  /\ quantity o = quantity o'
  /\ side o = side o'
  /\ type o = type o'
  /\ time_in_force o = time_in_force o'.

(** Two outcomes of the sizing code that a caller cannot tell apart but for
    the signals the orders carry: the same exception, or two order lists
    that agree order by order on everything else. *)
Definition alike (a b : res (list Order)) : Prop :=
  match a, b with
  | inr orders, inr orders' => Forall2 same_terms orders orders'
  | inl e, inl e' => e = e'
  | _, _ => False
  end.

(** Sum of the absolute values held by a dict of position values. *)
Definition abs_total (d : odict Q) : Q :=
  Alpha.Qsum (map (fun kv => Qabs (snd kv)) d).

(** An order as the sizing loop builds it from an entry of the signal
    dict. *)
Definition built_from (signals : odict Alpha.Signal) (order : Order) : Prop :=
  (symbol order, signal order) ∈ signals
  /\ (0 < quantity order)%Z
  /\ 0.6 < Alpha.sig_confidence (signal order)
  /\ 0 < Alpha.sig_expected_return (signal order)
  /\ Alpha.sig_direction (signal order) <> 0%Z
  /\ side order = (if (0 <? Alpha.sig_direction (signal order))%Z then buy else sell)
  /\ type order = "limit"
  /\ time_in_force order = "day".

Definition sized (self : RiskManagementEngine) (account : Account)
    (order : Order) : Prop :=
  (0 < quantity order)%Z /\ within_caps self account order.

End Risk.

(** ** Execution engine *)

Module Execution.
Import Brokerage.
Export Risk(Order, symbol, quantity, side, signal, set_quantity).

(** What an execution leaves behind, in the order it happened: a request
    sent to the brokerage, an [asyncio.sleep] delay taken, a line given to
    the logger. *)
Inductive Event : Type :=
| Sent (request : OrderRequest)
| Slept (seconds : Q)
| Logged (line : string).

Definition World : Type := list Event.

Definition empty_world : World := [].

(** The requests, the delays and the log lines of a world, each in order. *)
Definition requests (w : World) : list OrderRequest :=
  omap (fun ev => match ev with Sent request => Some request | _ => None end) w.

Definition sleeps (w : World) : list Q :=
  omap (fun ev => match ev with Slept seconds => Some seconds | _ => None end) w.

Definition errors_logged (w : World) : list string :=
  omap (fun ev => match ev with Logged line => Some line | _ => None end) w.

Definition M (A : Type) : Type := World -> res A * World.

Definition ret {A} (a : A) : M A := fun w => (inr a, w).

Definition bind {A B} (m : M A) (k : A -> M B) : M B :=
  fun w => match m w with
           | (inr a, w') => k a w'
           | (inl e, w') => (inl e, w')
           end.

(** [try: m  except Exception as e: h e] *)
Definition try_except {A} (m : M A) (h : exn -> M A) : M A :=
  fun w => match m w with
           | (inl e, w') => h e w'
           | r => r
           end.

Definition asyncio_sleep (seconds : Q) : M unit :=
  fun w => (inr tt, w ++ [Slept seconds]).

Definition logger_error (line : string) : M unit :=
  fun w => (inr tt, w ++ [Logged line]).

Record ExecutionEngine : Type := {
  trading_client : TradingClient;
  max_slippage : Q
}.

Definition init (client : TradingClient) : ExecutionEngine :=
  {| trading_client := client; max_slippage := 0.002 |}.

(** [self.trading_client.submit_order(request)]: the request reaches the
    brokerage, which answers with an order id or raises. *)
Definition submit (self : ExecutionEngine) (request : OrderRequest) : M string :=
  fun w => (submit_order (trading_client self) (requests w) request,
            w ++ [Sent request]).

(** The result dicts: the two single-order shapes share a constructor, the
    adaptive shape carries the per-chunk results, the failure shape the
    error text. *)
Inductive ExecutionResult : Type :=
| Submitted (order_id : string) (strategy : string) (limit_price : option Q)
| SubmittedChunks (chunks : nat) (results : list ExecutionResult)
| Failed (error : string).

Definition status (r : ExecutionResult) : string :=
  match r with
  | Submitted _ _ _ | SubmittedChunks _ _ => "submitted"
  | Failed _ => "failed"
  end.

Inductive Strategy : Type := AGGRESSIVE | PASSIVE | ADAPTIVE.

Definition select_execution_strategy (order : Order) : Strategy :=
  if Qgtb (Alpha.sig_confidence (signal order)) 0.8 then AGGRESSIVE
  else if (1000 <? quantity order)%Z then PASSIVE
  else ADAPTIVE.

Definition get_current_price (self : ExecutionEngine) (sym : string) : Q :=
  match get_position (trading_client self) sym with
  | inr position => current_price position
  | inl _ => 100.0
  end.

(** [round(x, 2)]: to the nearest hundredth, ties to the even one. *)
Definition round_half_even (x : Q) : Z :=
  let f := Qfloor x in
  let r := x - inject_Z f in
  if Qltb r 0.5 then f
  else if Qgtb r 0.5 then (f + 1)%Z
  else if Z.even f then f else (f + 1)%Z.

Definition round2 (x : Q) : Q := inject_Z (round_half_even (x * 100)) / 100.

Definition aggressive_execution (self : ExecutionEngine) (order : Order)
  : M ExecutionResult :=
  let request := {| req_symbol := symbol order;
                    req_qty := quantity order;
                    req_side := side order;
                    req_time_in_force := "day";
                    req_limit_price := None |} in
  bind (submit self request) (fun id =>
  ret (Submitted id "aggressive" None)).

Definition passive_execution (self : ExecutionEngine) (order : Order)
  : M ExecutionResult :=
  let current_price := get_current_price self (symbol order) in
  let limit_price :=
    if Side_eqb (side order) buy
    then current_price * (1 - 0.0001)
    else current_price * (1 + 0.0001) in
  let request := {| req_symbol := symbol order;
                    req_qty := quantity order;
                    req_side := side order;
                    req_time_in_force := "day";
                    req_limit_price := Some (round2 limit_price) |} in
  bind (submit self request) (fun id =>
  ret (Submitted id "passive" (Some limit_price))).

(** The [while remaining > 0] loop, bounded by [fuel] iterations; [None]
    when the bound is hit before the loop condition fails. *)
Fixpoint split_chunks (fuel : nat) (chunk_size remaining : Z) (chunks : list Z)
  : option (list Z) :=
  if (0 <? remaining)%Z then
    match fuel with
    | O => None
    | S fuel' =>
        let current_chunk := Z.min chunk_size remaining in
        split_chunks fuel' chunk_size (remaining - current_chunk)%Z
                     (chunks ++ [current_chunk])
    end
  else Some chunks.

Definition order_chunks (qty : Z) : option (list Z) :=
  let chunk_size := Z.max 1 (qty / 5) in
  split_chunks (Z.to_nat qty) chunk_size qty [].

(** The [for i, chunk in enumerate(chunks)] loop; [n] is [len(chunks)]. *)
Fixpoint execute_chunks (self : ExecutionEngine) (order : Order) (n i : nat)
    (chunks : list Z) (results : list ExecutionResult)
  : M (list ExecutionResult) :=
  match chunks with
  | [] => ret results
  | chunk :: rest =>
      let chunk_order := set_quantity order chunk in
      bind (if Nat.even i
            then aggressive_execution self chunk_order
            else passive_execution self chunk_order) (fun result =>
      bind (if (i <? n - 1)%nat then asyncio_sleep 2 else ret tt) (fun _ =>
      execute_chunks self order n (S i) rest (results ++ [result])))
  end.

(** The chunking loop always leaves through its condition
    ([order_chunks_total] below), so the [None] branch is never taken. *)
Definition adaptive_execution (self : ExecutionEngine) (order : Order)
  : M ExecutionResult :=
  match order_chunks (quantity order) with
  | Some chunks =>
      bind (execute_chunks self order (length chunks) 0 chunks []) (fun results =>
      ret (SubmittedChunks (length chunks) results))
  | None => ret (SubmittedChunks 0 [])
  end.

(** The body of the [try] in [execute_order]. *)
Definition run_strategy (self : ExecutionEngine) (order : Order)
  : M ExecutionResult :=
  let execution_strategy := select_execution_strategy order in
  match execution_strategy with
  | AGGRESSIVE => aggressive_execution self order
  | PASSIVE => passive_execution self order
  | ADAPTIVE => adaptive_execution self order
  end.

Definition execute_order (self : ExecutionEngine) (order : Order)
  : M ExecutionResult :=
  try_except
    (run_strategy self order)
    (fun e =>
       bind (logger_error ("Execution error for " +:+ symbol order +:+ ": " +:+ str e))
            (fun _ => ret (Failed (str e)))).

(** The events of submitting [reqs] one after the other with a two-second
    delay between consecutive submissions and none after the last. *)
Fixpoint paced (reqs : list OrderRequest) : list Event :=
  match reqs with
  | [] => []
  | [request] => [Sent request]
  | request :: rest => Sent request :: Slept 2 :: paced rest
  end.

(** A brokerage that takes every order, and one that refuses every order
    with the exception [e]. *)
Definition accepts (client : TradingClient) : Prop :=
  forall sent request, exists id, submit_order client sent request = inr id.

Definition refuses (client : TradingClient) (e : exn) : Prop :=
  forall sent request, submit_order client sent request = inl e.

Definition Zsum (l : list Z) : Z := fold_right Z.add 0%Z l.

(** A limit request, as opposed to a market request. *)
Definition has_limit (request : OrderRequest) : bool :=
  match req_limit_price request with Some _ => true | None => false end.

(** A request on the order's symbol and side, good for the day. *)
Definition for_order (order : Order) (request : OrderRequest) : Prop :=
  req_symbol request = symbol order
  /\ req_side request = side order
  /\ req_time_in_force request = "day".

End Execution.

(** ** Compliance engine *)

Module Compliance.
Import Brokerage.
Export Risk(Order, symbol, quantity, side, signal).

(** Values held by an execution dict. *)
Inductive pyval : Type :=
| VNone
| VStr (s : string)
| VInt (z : Z)
| VFloat (q : Q)
| VList (l : list pyval)
| VDict (d : list (string * pyval)).

(** A naive [datetime] is its count of microseconds since 1970-01-01
    00:00:00, a Thursday. *)
Definition usec_per_second : Z := 1000000.
Definition usec_per_day : Z := 86400 * usec_per_second.
Definition days (n : Z) : Z := (n * usec_per_day)%Z.

(** [(a - b).days]: whole days, rounded toward minus infinity. *)
Definition timedelta_days (a b : Z) : Z := ((a - b) / usec_per_day)%Z.

Definition hour (t : Z) : Z := ((t mod usec_per_day) / (3600 * usec_per_second))%Z.
Definition minute (t : Z) : Z :=
  (((t mod usec_per_day) / (60 * usec_per_second)) mod 60)%Z.
(** Monday is 0. *)
Definition weekday (t : Z) : Z := ((t / usec_per_day + 3) mod 7)%Z.

(** [t.replace(hour=h, minute=m, second=s)]: date and microsecond kept. *)
Definition replace_hms (t h m s : Z) : Z :=
  ((t / usec_per_day) * usec_per_day
   + (h * 3600 + m * 60 + s) * usec_per_second
   + t mod usec_per_second)%Z.

Record MarketConditions : Type := {
  mc_timestamp : Z;
  mc_symbol : pyval;
  market_phase : string;
  volatility : string
}.

Record Trade : Type := {
  timestamp : Z;
  execution : gmap string pyval;
  market_conditions : MarketConditions
}.

Record ComplianceEngine : Type := {
  trade_log : list Trade;
  alerts : list string
}.

Definition init : ComplianceEngine := {| trade_log := []; alerts := [] |}.

Definition is_market_hours (now : Z) : bool :=
  let market_open := replace_hms now 9 30 0 in
  let market_close := replace_hms now 16 0 0 in
  (market_open <=? now)%Z && (now <=? market_close)%Z && (weekday now <? 5)%Z.

Definition is_reporting_time (now : Z) : bool :=
  (hour now =? 16)%Z && (minute now =? 30)%Z.

Definition capture_market_conditions (now : Z) (sym : pyval) : MarketConditions :=
  {| mc_timestamp := now;
     mc_symbol := sym;
     market_phase := if is_market_hours now then "regular" else "extended";
     volatility := "normal" |}.

(** [execution['symbol']] raises when the key is absent; the append happens
    only after the entry has been built.  The manipulation check is a stub
    and report generation only logs. *)
Definition post_trade_surveillance (self : ComplianceEngine) (now : Z)
    (execution : gmap string pyval) : res ComplianceEngine :=
  match execution !! "symbol" with
  | None => inl (KeyError "symbol")
  | Some sym =>
      inr {| trade_log :=
               deque_append 10000
                 {| timestamp := now;
                    execution := execution;
                    market_conditions := capture_market_conditions now sym |}
                 (trade_log self);
             alerts := alerts self |}
  end.

(** [paper_account] is the value of the expression
    [TradingClient(api_key=os.getenv(..), secret_key=os.getenv(..),
    paper=True).get_account()] of lines 819-823, the account or the
    exception raised on the way; [paper_client_account] below evaluates
    that expression as the module stands. *)
Definition is_pattern_day_trader_violation (paper_account : res Account)
  : res bool :=
  (account <- paper_account ;;
   inr (Qltb (equity account) 25000 && pattern_day_trader account))%res.

(** The names bound at module level once the file has been imported: its
    import statements (lines 5-17 and 1013-1014), [logger], the classes,
    [app], [orchestrator] and the endpoint functions. *)
Definition module_names : list string :=
  ["asyncio"; "datetime"; "timedelta"; "Dict"; "List"; "Optional"; "Tuple";
   "np"; "pd"; "TradingClient"; "StockHistoricalDataClient";
   "CryptoHistoricalDataClient"; "OptionHistoricalDataClient";
   "MarketOrderRequest"; "LimitOrderRequest"; "StockBarsRequest";
   "CryptoBarsRequest"; "TimeFrame"; "deque"; "json"; "logging"; "logger";
   "AlphaSignalGenerator"; "RiskManagementEngine"; "ExecutionEngine";
   "MarketDataEngine"; "ComplianceEngine"; "TradingOrchestrator";
   "FastAPI"; "HTTPException"; "BaseModel"; "app"; "orchestrator";
   "TradingCommand"; "UniverseUpdate"; "startup_event"; "control_trading";
   "get_status"; "update_universe"; "get_signals"; "get_risk_metrics"].

(** Reading a global name that is not a builtin. *)
Definition global_name (name : string) : res unit :=
  if bool_decide (name ∈ module_names) then inr tt else inl (NameError name).

(** The account expression of lines 819-823: the callee and then the
    arguments are evaluated before the call is made, so [os] is looked up
    before any client exists; [get_account] is what the paper client would
    answer. *)
Definition paper_client_account (get_account : res Account) : res Account :=
  (_ <- global_name "TradingClient" ;;
   _ <- global_name "os" ;;
   get_account)%res.

Definition exceeds_position_limit (order : Order) : bool := false.

(** [d.get(key) == s] for a string [s]. *)
Definition get_is (d : gmap string pyval) (key s : string) : bool :=
  match d !! key with
  | Some (VStr s') => String.eqb s' s
  | _ => false
  end.

Definition recent_trades (self : ComplianceEngine) (now : Z) (sym : string)
  : list Trade :=
  filter (fun trade =>
            get_is (execution trade) "symbol" sym
            && (timedelta_days now (timestamp trade) <=? 30)%Z = true)
         (trade_log self).

Definition is_wash_sale (self : ComplianceEngine) (now : Z) (order : Order) : bool :=
  existsb (fun trade =>
             get_is (execution trade) "side" "sell" && Side_eqb (side order) buy)
          (recent_trades self now (symbol order)).

Definition pre_trade_check (self : ComplianceEngine) (paper_account : res Account)
    (now : Z) (order : Order) : res (bool * list string) :=
  (pdt <- is_pattern_day_trader_violation paper_account ;;
   let violations := [] in
   let violations :=
     if pdt then violations ++ ["Pattern day trading rule violation"]
     else violations in
   let violations :=
     if exceeds_position_limit order
     then violations ++ ["Position concentration limit exceeded"]
     else violations in
   let violations :=
     if is_wash_sale self now order
     then violations ++ ["Potential wash sale detected"]
     else violations in
   inr ((length violations =? 0)%nat, violations))%res.

(** No sell of [sym] in the log is dated after [t]. *)
Definition no_sell_after (self : ComplianceEngine) (sym : string) (t : Z) : Prop :=
  Forall (fun trade =>
            get_is (execution trade) "symbol" sym = true ->
            get_is (execution trade) "side" "sell" = true ->
            (timestamp trade <= t)%Z)
         (trade_log self).

(** Whole seconds since midnight. *)
Definition second_of_day (t : Z) : Z := ((t mod usec_per_day) / usec_per_second)%Z.

(** The log holds no sell of [sym]. *)
Definition never_sold (self : ComplianceEngine) (sym : string) : Prop :=
  Forall (fun trade =>
            get_is (execution trade) "symbol" sym = true ->
            get_is (execution trade) "side" "sell" = false)
         (trade_log self).

(** The entry that surveillance appends for [execution] at [now]. *)
Definition log_entry (now : Z) (execution : gmap string pyval) (sym : pyval)
  : Trade :=
  {| timestamp := now;
     execution := execution;
     market_conditions := capture_market_conditions now sym |}.

End Compliance.

(** ** Orchestrator *)

Module Orchestrator.
Import Brokerage.
Export Risk(Order, symbol, quantity, side, signal).
Import Compliance.

(** The dict behind each result shape of the execution engine. *)
Fixpoint result_items (r : Execution.ExecutionResult) : list (string * pyval) :=
  match r with
  | Execution.Submitted order_id strategy limit_price =>
      [("status", VStr "submitted"); ("order_id", VStr order_id);
       ("strategy", VStr strategy)]
      ++ match limit_price with
         | Some p => [("limit_price", VFloat p)]
         | None => []
         end
      ++ [("order", VDict [("id", VStr order_id)])]
  | Execution.SubmittedChunks chunks results =>
      [("status", VStr "submitted"); ("strategy", VStr "adaptive");
       ("chunks", VInt (Z.of_nat chunks));
       ("results", VList (map (fun r' => VDict (result_items r')) results))]
  | Execution.Failed error =>
      [("status", VStr "failed"); ("error", VStr error)]
  end.

Definition result_dict (r : Execution.ExecutionResult) : gmap string pyval :=
  list_to_map (result_items r).

Record TradingOrchestrator : Type := {
  trading_client : TradingClient;
  risk_engine : Risk.RiskManagementEngine;
  execution_engine : Execution.ExecutionEngine;
  universe : list string;
  is_running : bool;
  trading_enabled : bool
}.

(** [__init__], given the two clients it builds. *)
Definition init (client : TradingClient) : TradingOrchestrator :=
  {| trading_client := client;
     risk_engine := Risk.init client;
     execution_engine := Execution.init client;
     universe := ["AAPL"; "GOOGL"; "MSFT"; "AMZN"; "TSLA"; "SPY"; "QQQ"];
     is_running := false;
     trading_enabled := true |}.

Definition stop (self : TradingOrchestrator) : TradingOrchestrator :=
  {| trading_client := trading_client self;
     risk_engine := risk_engine self;
     execution_engine := execution_engine self;
     universe := universe self;
     is_running := false;
     trading_enabled := trading_enabled self |}.

(** Extended hours, 4:00 to 20:00 on weekdays. *)
Definition is_market_hours (now : Z) : bool :=
  let market_open := replace_hms now 4 0 0 in
  let market_close := replace_hms now 20 0 0 in
  (market_open <=? now)%Z && (now <=? market_close)%Z && (weekday now <? 5)%Z.

(** What a cycle can change: the brokerage-side world, the compliance
    engine and the signal history. *)
Record CycleState : Type := {
  world : Execution.World;
  compliance_engine : ComplianceEngine;
  signals_history : list Alpha.Signal
}.

Section Cycle.
Variable self : TradingOrchestrator.
(** The answer of the account fetch inside the pattern-day-trader check. *)
Variable paper_account : res Account.
(** [datetime.now()] during the cycle. *)
Variable now : Z.

(** The [for order in orders] loop of [run_trading_cycle]; an exception
    leaves the loop.  Info and warning lines are not recorded. *)
Fixpoint run_orders (orders : list Order) (w : Execution.World)
    (c : ComplianceEngine) : res unit * Execution.World * ComplianceEngine :=
  match orders with
  | [] => (inr tt, w, c)
  | order :: rest =>
      match pre_trade_check c paper_account now order with
      | inl e => (inl e, w, c)
      | inr (passed, violations) =>
          if negb passed then run_orders rest w c
          else if trading_enabled self then
            match Execution.execute_order (execution_engine self) order w with
            | (inl e, w1) => (inl e, w1, c)
            | (inr execution, w1) =>
                match post_trade_surveillance c now (result_dict execution) with
                | inl e => (inl e, w1, c)
                | inr c1 => run_orders rest w1 c1
                end
            end
          else run_orders rest w c
      end
  end.

Definition log_cycle_error (e : exn) (w : Execution.World) : Execution.World :=
  snd (Execution.logger_error ("Error in trading cycle: " +:+ str e) w).

Section WithSignals.
(** The alpha engine's [generate_signals] on the universe. *)
Variable generate : list Alpha.Signal -> list string
                    -> odict Alpha.Signal * list Alpha.Signal.
Variable daily_vol : Q.

Definition run_trading_cycle (st : CycleState) : CycleState :=
  let '(signals, history) := generate (signals_history st) (universe self) in
  match (positions <- get_all_positions (trading_client self) ;;
         Risk.optimize_portfolio daily_vol (risk_engine self) signals)%res with
  | inl e =>
      {| world := log_cycle_error e (world st);
         compliance_engine := compliance_engine st;
         signals_history := history |}
  | inr orders =>
      match run_orders orders (world st) (compliance_engine st) with
      | (inl e, w, c) =>
          {| world := log_cycle_error e w;
             compliance_engine := c;
             signals_history := history |}
      | (inr _, w, c) =>
          {| world := w; compliance_engine := c; signals_history := history |}
      end
  end.
End WithSignals.
End Cycle.


End Orchestrator.

(** ** Concrete scenarios used by the examples below *)

Module Scenario.

(** Features under which all four scoring conditions fire. *)
Definition micro_all : gmap string fval := {[ "kyle_lambda" := Fin (-1) ]}.
Definition tech_all : gmap string fval :=
  {[ "rsi" := Fin 20; "macd_signal" := Fin 1 ]}.

(** An account of 100,000 with no open position; every order is taken. *)
Definition account : Brokerage.Account :=
  {| Brokerage.equity := 100000;
     Brokerage.cash := 100000;
     Brokerage.buying_power := 100000;
     Brokerage.pattern_day_trader := false |}.

Definition client : Brokerage.TradingClient :=
  {| Brokerage.get_account := inr account;
     Brokerage.get_all_positions := inr [];
     Brokerage.get_position := fun _ => inl (BrokerError "position does not exist");
     Brokerage.submit_order := fun _ request => inr (Brokerage.req_symbol request) |}.

(** The same brokerage with order submission out of service. *)
Definition rejecting_client : Brokerage.TradingClient :=
  {| Brokerage.get_account := inr account;
     Brokerage.get_all_positions := inr [];
     Brokerage.get_position := fun _ => inl (BrokerError "position does not exist");
     Brokerage.submit_order := fun _ _ => inl (BrokerError "order rejected") |}.

(** One oversold instrument: direction 1, confidence 0.8. *)
Definition signals : odict Alpha.Signal :=
  fst (Alpha.generate_signals (fun _ => inr ∅)
                              (fun _ => inr {[ "rsi" := Fin 20 ]}) 0 [] ["X"]).

Definition generated_X : Alpha.Signal :=
  {| Alpha.symbol := "X";
     Alpha.sig_direction := 1;
     Alpha.sig_confidence := Py.min2 (0.5 + 0.1 + 0.2) 0.9;
     Alpha.sig_expected_return := inject_Z 1 * (0.5 + 0.1 + 0.2) * 0.02;
     Alpha.sig_holding_period := "1D";
     Alpha.sig_microstructure := ∅;
     Alpha.sig_technical := {[ "rsi" := Fin 20 ]};
     Alpha.sig_timestamp := 0 |}.

Definition signal_X : Alpha.Signal :=
  {| Alpha.symbol := "X";
     Alpha.sig_direction := 1;
     Alpha.sig_confidence := 0.8;
     Alpha.sig_expected_return := 0.016;
     Alpha.sig_holding_period := "1D";
     Alpha.sig_microstructure := ∅;
     Alpha.sig_technical := {[ "rsi" := Fin 20 ]};
     Alpha.sig_timestamp := 0 |}.

(** The same instrument on a signal barely above the confidence gate. *)
Definition faint_X : Alpha.Signal :=
  {| Alpha.symbol := "X";
     Alpha.sig_direction := 1;
     Alpha.sig_confidence := 0.61;
     Alpha.sig_expected_return := 0.0001;
     Alpha.sig_holding_period := "1D";
     Alpha.sig_microstructure := ∅;
     Alpha.sig_technical := ∅;
     Alpha.sig_timestamp := 0 |}.

Definition order_of (qty : Z) (sd : Brokerage.Side) : Risk.Order :=
  {| Risk.symbol := "X";
     Risk.quantity := qty;
     Risk.side := sd;
     Risk.type := "limit";
     Risk.time_in_force := "day";
     Risk.signal := signal_X |}.

Definition levered : Risk.RiskMetrics :=
  {| Risk.var_95 := 0; Risk.var_99 := 0; Risk.expected_shortfall := 0;
     Risk.current_leverage := 1.7;
     Risk.concentration_risk := 0;
     Risk.correlation_risk := 0.5 |}.

(** The same account holding two positions, one of them short. *)
Definition invested_client : Brokerage.TradingClient :=
  {| Brokerage.get_account := inr account;
     Brokerage.get_all_positions :=
       inr [ {| Brokerage.pos_symbol := "X"; Brokerage.current_price := 150;
                Brokerage.market_value := 30000; Brokerage.qty := 200;
                Brokerage.cost_basis := 28000 |};
             {| Brokerage.pos_symbol := "Y"; Brokerage.current_price := 50;
                Brokerage.market_value := -10000; Brokerage.qty := -200;
                Brokerage.cost_basis := -11000 |} ];
     Brokerage.get_position := fun _ => inl (BrokerError "position does not exist");
     Brokerage.submit_order := fun _ request => inr (Brokerage.req_symbol request) |}.

(** A brokerage whose position listing is out of service. *)
Definition blind_client : Brokerage.TradingClient :=
  {| Brokerage.get_account := inr account;
     Brokerage.get_all_positions := inl (BrokerError "positions unavailable");
     Brokerage.get_position := fun _ => inl (BrokerError "position does not exist");
     Brokerage.submit_order := fun _ request => inr (Brokerage.req_symbol request) |}.


(** A sell of X as a surveillance entry would need it, logged at 10:00 on
    some Monday. *)
Definition sell_X : gmap string Compliance.pyval :=
  {[ "symbol" := Compliance.VStr "X";
     "side" := Compliance.VStr "sell";
     "status" := Compliance.VStr "submitted" ]}.

Definition T0 : Z := (Compliance.days 19002 + 10 * 3600 * 1000000)%Z.

End Scenario.

(** * Properties *)

Section Numerics.

Lemma Qltb_lt (x y : Q) : Qltb x y = true <-> x < y.
Proof.
  unfold Qltb. rewrite negb_true_iff.
  destruct (Qle_bool y x) eqn:E.
  - apply Qle_bool_iff in E. split; [discriminate | intros H; lra].
  - split; [intros _ | reflexivity].
    destruct (Qlt_le_dec x y) as [H | H]; [exact H |].
    apply Qle_bool_iff in H. congruence.
Qed.

Lemma Qltb_ge (x y : Q) : Qltb x y = false <-> y <= x.
Proof.
  unfold Qltb. rewrite negb_false_iff. apply Qle_bool_iff.
Qed.

Lemma min2_le_l (a b : Q) : min2 a b <= a.
Proof.
  unfold min2. destruct (Qltb b a) eqn:E.
  - apply Qltb_lt in E. lra.
  - lra.
Qed.

Lemma min2_le_r (a b : Q) : min2 a b <= b.
Proof.
  unfold min2. destruct (Qltb b a) eqn:E.
  - lra.
  - apply Qltb_ge in E. exact E.
Qed.

Lemma min2_glb (a b c : Q) : c <= a -> c <= b -> c <= min2 a b.
Proof. unfold min2. destruct (Qltb b a); auto. Qed.

End Numerics.

(** Case analysis on every float comparison left in the goal, each branch
    carrying the order fact for [lra]. *)
Ltac qcases :=
  repeat match goal with
    | |- context [Qltb ?a ?b] =>
        let E := fresh "E" in
        destruct (Qltb a b) eqn:E;
        [apply Qltb_lt in E | apply Qltb_ge in E]
    | H : context [Qltb ?a ?b] |- _ =>
        let E := fresh "E" in
        destruct (Qltb a b) eqn:E;
        [apply Qltb_lt in E | apply Qltb_ge in E]
    | |- context [Qle_bool ?a ?b] =>
        let E := fresh "E" in
        destruct (Qle_bool a b) eqn:E;
        [apply Qle_bool_iff in E
        | apply not_true_iff_false in E; rewrite Qle_bool_iff in E;
          apply Qnot_le_lt in E]
    end.

(** ** Kelly sizing *)

Section Kelly.
Import Risk.

Lemma kelly_zero_when_no_edge (expected_return confidence : Q) :
  expected_return <= 0 \/ confidence <= 0.5 ->
  calculate_kelly_fraction expected_return confidence = 0.0.
Proof.
  intros H. unfold calculate_kelly_fraction, Qleb.
  destruct (Qle_bool expected_return 0) eqn:E1; [reflexivity |].
  destruct (Qle_bool confidence 0.5) eqn:E2; [reflexivity |].
  apply not_true_iff_false in E1, E2. rewrite Qle_bool_iff in E1, E2.
  destruct H; contradiction.
Qed.

Lemma kelly_bounds (expected_return confidence : Q) :
  0 <= calculate_kelly_fraction expected_return confidence <= 0.1.
Proof.
  unfold calculate_kelly_fraction, Qleb, max2, min2, Qgtb.
  destruct (Qle_bool expected_return 0 || Qle_bool confidence 0.5).
  - lra.
  - qcases; lra.
Qed.

(** C1.  The Kelly fraction is never negative and never above 0.1; it is 0
    as soon as the expected return is not positive or the confidence is at
    most 0.5; with confidence 1 and a positive expected return it is the
    0.1 cap. *)
Theorem kelly_fraction_range (expected_return confidence : Q) :
  0 <= calculate_kelly_fraction expected_return confidence <= 0.1
  /\ (expected_return <= 0 \/ confidence <= 0.5 ->
      calculate_kelly_fraction expected_return confidence == 0)
  /\ (0 < expected_return -> confidence == 1 ->
      calculate_kelly_fraction expected_return confidence == 0.1).
Proof.
  split; [apply kelly_bounds | split].
  - intros H. rewrite (kelly_zero_when_no_edge _ _ H). reflexivity.
  - intros Hr Hc.
    unfold calculate_kelly_fraction, Qleb, max2, min2, Qgtb.
    destruct (Qle_bool expected_return 0) eqn:E1.
    { apply Qle_bool_iff in E1. lra. }
    destruct (Qle_bool confidence 0.5) eqn:E2.
    { apply Qle_bool_iff in E2. lra. }
    cbn [orb].
    assert (Hk : confidence - (1 - confidence) / 2.0 == 1)
      by (rewrite Hc; reflexivity).
    revert Hk. generalize (confidence - (1 - confidence) / 2.0). intros k Hk.
    qcases; lra.
Qed.

Lemma kelly_fraction_range_witness :
  calculate_kelly_fraction 0.02 1 == 0.1
  /\ calculate_kelly_fraction 0.02 0.5 == 0.
Proof.
  split.
  - apply (proj2 (proj2 (kelly_fraction_range 0.02 1))); reflexivity.
  - apply (proj1 (proj2 (kelly_fraction_range 0.02 0.5))).
    right. apply Qle_refl.
Defined.

End Kelly.

(** ** Scoring *)

Section Scoring.
Import Alpha.

Lemma ml_tally_confidence_range (micro tech : gmap string fval) :
  0.5 <= raw_confidence (ml_tally micro tech) <= 1.
Proof.
  unfold ml_tally, fgtb.
  repeat match goal with
         | |- context [fltb ?a ?b] => destruct (fltb a b)
         end; cbn; lra.
Qed.

Lemma ml_direction_cases (micro tech : gmap string fval) :
  direction (ml_predict micro tech) = (-1)%Z
  \/ direction (ml_predict micro tech) = 0%Z
  \/ direction (ml_predict micro tech) = 1%Z.
Proof.
  unfold ml_predict; cbn [direction].
  destruct (1 <? _)%Z; [auto |].
  destruct (_ <? -1)%Z; auto.
Qed.

Lemma ml_confidence_range (micro tech : gmap string fval) :
  0.5 <= confidence (ml_predict micro tech) <= 0.9.
Proof.
  unfold ml_predict; cbn [confidence].
  pose proof (ml_tally_confidence_range micro tech) as [Hlo _].
  split.
  - apply min2_glb; [exact Hlo | lra].
  - apply min2_le_r.
Qed.




Lemma Forall_odict_set {V} (P : string * V -> Prop) (k : string) (v : V)
    (d : odict V) :
  P (k, v) -> Forall P d -> Forall P (odict_set k v d).
Proof.
  intros Hkv Hd. induction Hd as [| [k' v'] d' Hx Hd' IH]; cbn.
  - constructor; [exact Hkv | constructor].
  - destruct (String.eqb k k'); constructor; auto.
Qed.

Lemma signal_for_in_range (cm ct : string -> res features) (now : Z)
    (sym : string) (s : Signal) :
  signal_for cm ct now sym = inr s -> signal_in_range s.
Proof.
  unfold signal_for, rbind.
  destruct (cm sym) as [e | micro]; [discriminate |].
  destruct (ct sym) as [e | tech]; [discriminate |].
  intros [= <-]. split; cbn [sig_confidence sig_direction].
  - apply ml_confidence_range.
  - apply ml_direction_cases.
Qed.

Lemma generate_signals_in_range (cm ct : string -> res features) (now : Z)
    (universe : list string) (st : odict Signal * list Signal) :
  Forall (fun kv => signal_in_range (snd kv)) (fst st) ->
  Forall (fun kv => signal_in_range (snd kv))
         (fst (fold_left (generate_step cm ct now) universe st)).
Proof.
  revert st. induction universe as [| sym rest IH]; intros st Hst; cbn.
  - exact Hst.
  - apply IH. unfold generate_step.
    destruct (signal_for cm ct now sym) as [e | s] eqn:E; [exact Hst |].
    cbn [fst]. apply Forall_odict_set; [| exact Hst].
    cbn [snd]. eapply signal_for_in_range; exact E.
Qed.

(** C10.  Whatever the feature dicts hold, the prediction has a confidence
    between 0.5 and 0.9 and a direction among -1, 0 and 1; every signal in
    the dict returned by [generate_signals] inherits both. *)
Theorem signal_confidence_and_direction_range :
  (forall micro tech : gmap string fval,
      0.5 <= confidence (ml_predict micro tech) <= 0.9
      /\ (direction (ml_predict micro tech) = (-1)%Z
          \/ direction (ml_predict micro tech) = 0%Z
          \/ direction (ml_predict micro tech) = 1%Z))
  /\ (forall (cm ct : string -> res features) (now : Z)
             (history : list Signal) (universe : list string),
         Forall (fun kv => signal_in_range (snd kv))
                (fst (generate_signals cm ct now history universe))).
Proof.
  split.
  - intros micro tech. split; [apply ml_confidence_range | apply ml_direction_cases].
  - intros cm ct now history universe. unfold generate_signals.
    apply generate_signals_in_range. constructor.
Qed.

End Scoring.

(** ** Technical indicators on short histories *)

Section ShortHistory.
Import Alpha.

(** C9.  Below their minimum sample count the technical feature functions
    return their neutral value, a finite number: the oscillator 50 with
    fewer than [period + 1] prices (15 by default), the band position 0.5
    with fewer than [period] prices (20 by default), the trend differential
    0 with fewer than 26 prices. *)
Theorem short_history_neutral_values (sqrt : Q -> Q) (prices : list Q) :
  (forall period : nat,
      (length prices < period + 1)%nat -> calculate_rsi prices period = Fin 50.0)
  /\ ((length prices < 15)%nat -> calculate_rsi prices 14 = Fin 50.0)
  /\ (forall period : nat,
        (length prices < period)%nat ->
        calculate_bollinger_position sqrt prices period = Fin 0.5)
  /\ ((length prices < 20)%nat ->
      calculate_bollinger_position sqrt prices 20 = Fin 0.5)
  /\ ((length prices < 26)%nat -> calculate_macd_signal prices = 0.0).
Proof.
  assert (Hrsi : forall period : nat,
             (length prices < period + 1)%nat ->
             calculate_rsi prices period = Fin 50.0).
  { intros period H. unfold calculate_rsi.
    apply Nat.ltb_lt in H. rewrite H. reflexivity. }
  assert (Hbb : forall period : nat,
             (length prices < period)%nat ->
             calculate_bollinger_position sqrt prices period = Fin 0.5).
  { intros period H. unfold calculate_bollinger_position.
    apply Nat.ltb_lt in H. rewrite H. reflexivity. }
  repeat split.
  - exact Hrsi.
  - intros H. apply Hrsi. lia.
  - exact Hbb.
  - intros H. apply Hbb. exact H.
  - intros H. unfold calculate_macd_signal.
    apply Nat.ltb_lt in H. rewrite H. reflexivity.
Qed.

Lemma short_history_neutral_values_witness :
  calculate_rsi [10; 11; 12] 14 = Fin 50.0
  /\ calculate_bollinger_position (fun x => x) [10; 11; 12] 20 = Fin 0.5
  /\ calculate_macd_signal [10; 11; 12] = 0.0.
Proof.
  pose proof (short_history_neutral_values (fun x => x) [10; 11; 12])
    as (_ & Hrsi & _ & Hbb & Hmacd).
  split; [apply Hrsi; cbn; lia | split; [apply Hbb; cbn; lia | apply Hmacd; cbn; lia]].
Defined.

End ShortHistory.

(** ** Portfolio-level constraints *)

Section RiskConstraints.
Import Brokerage Risk.

Lemma int_le_of_nonneg (x : Q) : 0 <= x -> inject_Z (int x) <= x.
Proof.
  intros H. unfold int. apply Qle_bool_iff in H. rewrite H. apply Qfloor_le.
Qed.

Lemma int_nonneg (x : Q) : 0 <= x -> (0 <= int x)%Z.
Proof.
  intros H. unfold int. pose proof H as Hb. apply Qle_bool_iff in Hb. rewrite Hb.
  change 0%Z with (Qfloor 0). apply Qfloor_resp_le. exact H.
Qed.

Lemma int_half_lt (q : Z) : (0 < q)%Z -> (0 <= int (inject_Z q * 0.5) < q)%Z.
Proof.
  intros Hq.
  assert (Hq' : inject_Z 0 < inject_Z q) by (rewrite <- Zlt_Qlt; exact Hq).
  change (inject_Z 0) with 0 in Hq'.
  assert (Hx : 0 <= inject_Z q * 0.5) by lra.
  split; [apply int_nonneg; exact Hx |].
  rewrite Zlt_Qlt. pose proof (int_le_of_nonneg _ Hx). lra.
Qed.

(** What the leverage branch does to one order. *)
Lemma scaled_order_in_output (self : RiskManagementEngine) (orders : list Order)
    (risk_metrics : RiskMetrics) (o' : Order) :
  max_leverage self * 0.8 < current_leverage risk_metrics ->
  o' ∈ apply_risk_constraints self orders risk_metrics ->
  exists o, o ∈ orders
            /\ o' = set_quantity o (int (inject_Z (quantity o) * 0.5)).
Proof.
  intros Hlev Hin. unfold apply_risk_constraints in Hin.
  apply Qltb_lt in Hlev. cbv zeta in Hin. unfold Qgtb in Hin. rewrite Hlev in Hin.
  apply list_elem_of_filter in Hin as [_ Hin].
  assert (Hmap : o' ∈ (fun order =>
                         set_quantity order (int (inject_Z (quantity order) * 0.5)))
                      <$> orders).
  { destruct (Qltb 0.3 _); [eapply subseteq_take |]; exact Hin. }
  apply list_elem_of_fmap in Hmap as (o & -> & Ho). eauto.
Qed.





Example leverage_scaling_example :
  map quantity (apply_risk_constraints (init Scenario.client)
                  [Scenario.order_of 23 buy; Scenario.order_of 1 sell]
                  Scenario.levered)
  = [11%Z].
Proof. vm_compute. reflexivity. Qed.

End RiskConstraints.

(** ** Sizing *)

Section Sizing.
Import Brokerage Risk.

Variable self : RiskManagementEngine.
Variable account : Account.
Hypothesis equity_pos : 0 < equity account.
Hypothesis buying_power_pos : 0 < buying_power account.
Hypothesis price_pos : forall sym, 0 < get_current_price self sym.


Lemma min3_le_1 (a b c : Q) : min3 a b c <= a.
Proof.
  unfold min3. pose proof (min2_le_l (min2 a b) c). pose proof (min2_le_l a b). lra.
Qed.

Lemma min3_le_3 (a b c : Q) : min3 a b c <= c.
Proof. unfold min3. apply min2_le_r. Qed.

Lemma position_size_capped (kelly max_size : Q) :
  0 <= kelly <= 0.1 ->
  min3 (kelly * equity account) (max_size * equity account)
       (buying_power account * 0.9)
  <= min2 (0.1 * equity account) (buying_power account).
Proof.
  intros [_ Hk]. apply min2_glb.
  - eapply Qle_trans; [apply min3_le_1 |].
    apply Qmult_le_compat_r; [exact Hk | lra].
  - eapply Qle_trans; [apply min3_le_3 | lra].
Qed.

Lemma notional_le (x price : Q) :
  0 <= x -> 0 < price -> inject_Z (int (x / price)) * price <= x.
Proof.
  intros Hx Hp.
  assert (Hr : 0 <= x / price).
  { apply Qle_shift_div_l; [exact Hp | lra]. }
  pose proof (int_le_of_nonneg _ Hr) as Hle.
  apply (Qmult_le_compat_r _ _ price) in Hle; [| lra].
  assert (Heq : x / price * price == x) by (field; lra).
  lra.
Qed.

Lemma size_signal_sized (sym : string) (sg : Alpha.Signal) :
  exists new,
    size_signal self (buying_power account) (equity account) sym sg = inr new
    /\ Forall (sized self account) new.
Proof.
  unfold size_signal.
  destruct (Alpha.sig_direction sg =? 0)%Z; [exists []; split; [reflexivity | constructor] |].
  set (ps := min3 _ _ _).
  assert (Hcap : ps <= min2 (0.1 * equity account) (buying_power account)).
  { apply position_size_capped. apply kelly_bounds. }
  destruct (Qgtb ps 100) eqn:Hbig;
    [| exists []; split; [reflexivity | constructor]].
  apply Qltb_lt in Hbig.
  unfold fdiv, rbind.
  destruct (Qeq_bool (get_current_price self sym) 0) eqn:Hz.
  { apply Qeq_bool_iff in Hz. pose proof (price_pos sym). lra. }
  destruct (0 <? int (ps / get_current_price self sym))%Z eqn:Hq;
    [| exists []; split; [reflexivity | constructor]].
  eexists; split; [reflexivity |].
  constructor; [| constructor]. split; cbn [quantity symbol].
  - apply Z.ltb_lt. exact Hq.
  - unfold within_caps; cbn [quantity symbol].
    eapply Qle_trans; [apply notional_le; [lra | apply price_pos] | exact Hcap].
Qed.

Lemma size_signals_sized (signals : odict Alpha.Signal) (orders : list Order) :
  Forall (sized self account) orders ->
  exists out,
    size_signals self (buying_power account) (equity account) signals orders = inr out
    /\ Forall (sized self account) out.
Proof.
  revert orders. induction signals as [| [sym sg] rest IH]; intros orders Hacc; cbn.
  - exists orders. split; [reflexivity | exact Hacc].
  - destruct (size_signal_sized sym sg) as (new & -> & Hnew). cbn [rbind].
    apply IH. apply Forall_app. split; assumption.
Qed.

Lemma constraints_keep_caps (orders : list Order) (risk_metrics : RiskMetrics) :
  Forall (sized self account) orders ->
  Forall (within_caps self account) (apply_risk_constraints self orders risk_metrics).
Proof.
  intros Hsized. unfold apply_risk_constraints. cbv zeta.
  apply Forall_forall. intros o' Hin.
  apply list_elem_of_filter in Hin as [_ Hin].
  assert (Hscaled : Forall (within_caps self account)
            ((fun order =>
                set_quantity order (int (inject_Z (quantity order) * 0.5)))
             <$> orders)).
  { apply Forall_fmap. eapply Forall_impl; [exact Hsized |].
    intros o [Hpos Hcap]. unfold compose, within_caps in *.
    cbn [quantity symbol set_quantity].
    destruct (int_half_lt _ Hpos) as [_ Hlt].
    eapply Qle_trans; [| exact Hcap].
    apply Qmult_le_compat_r; [| pose proof (price_pos (symbol o)); lra].
    rewrite <- Zle_Qle. lia. }
  assert (Hplain : Forall (within_caps self account) orders).
  { eapply Forall_impl; [exact Hsized |]. intros o [_ Hcap]. exact Hcap. }
  revert Hin.
  destruct (Qgtb (current_leverage risk_metrics) _);
    destruct (Qgtb (concentration_risk risk_metrics) _); intros Hin.
  - apply subseteq_take in Hin. rewrite Forall_forall in Hscaled. auto.
  - rewrite Forall_forall in Hscaled. auto.
  - apply subseteq_take in Hin. rewrite Forall_forall in Hplain. auto.
  - rewrite Forall_forall in Hplain. auto.
Qed.

Lemma portfolio_risk_returns (daily_vol : Q) (positions : list Position) :
  get_account (trading_client self) = inr account ->
  get_all_positions (trading_client self) = inr positions ->
  exists risk_metrics, calculate_portfolio_risk daily_vol self = inr risk_metrics.
Proof.
  intros Hacc Hpos. unfold calculate_portfolio_risk. rewrite Hpos. cbn [rbind].
  destruct positions as [| p rest]; [eexists; reflexivity |].
  rewrite Hacc. cbn [rbind]. unfold fdiv.
  destruct (Qeq_bool (equity account) 0) eqn:Hz.
  { apply Qeq_bool_iff in Hz. lra. }
  cbn [rbind]. eexists; reflexivity.
Qed.

(** C2.  With an account of positive equity and buying power and positive
    prices, [optimize_portfolio] returns a list of orders, each of which
    satisfies quantity * price <= min (0.1 * equity, buying power) at the
    price the engine looked up for its symbol. *)
Theorem sized_orders_within_caps (daily_vol : Q) (positions : list Position)
    (signals : odict Alpha.Signal) :
  get_account (trading_client self) = inr account ->
  get_all_positions (trading_client self) = inr positions ->
  exists orders,
    optimize_portfolio daily_vol self signals = inr orders
    /\ Forall (within_caps self account) orders.
Proof.
  intros Hacc Hpos. unfold optimize_portfolio. rewrite Hacc. cbn [rbind].
  destruct (portfolio_risk_returns daily_vol positions Hacc Hpos) as [rm ->].
  cbn [rbind].
  match goal with
  | |- context [size_signals _ _ _ ?sigs []] =>
      destruct (size_signals_sized sigs []) as (out & -> & Hout);
      [constructor |]
  end.
  cbn [rbind]. eexists; split; [reflexivity |].
  apply constraints_keep_caps. exact Hout.
Qed.

End Sizing.

Lemma sized_orders_within_caps_witness :
  exists orders,
    Risk.optimize_portfolio 0.01 (Risk.init Scenario.client) Scenario.signals
    = inr orders
    /\ Forall (Risk.within_caps (Risk.init Scenario.client) Scenario.account) orders.
Proof.
  apply (sized_orders_within_caps (Risk.init Scenario.client) Scenario.account)
    with (positions := []).
  - reflexivity.
  - reflexivity.
  - intros sym. reflexivity.
  - reflexivity.
  - reflexivity.
Defined.

Example optimize_portfolio_example :
  match Risk.optimize_portfolio 0.01 (Risk.init Scenario.client) Scenario.signals with
  | inr orders => map (fun o => (Risk.symbol o, Risk.quantity o, Risk.side o)) orders
  | inl _ => []
  end = [("X", 100%Z, Brokerage.buy)].
Proof. vm_compute. reflexivity. Qed.

(** ** Execution *)

Section Worlds.
Import Brokerage Execution.

Variable w : World.

Lemma requests_sent (request : OrderRequest) :
  requests (w ++ [Sent request]) = requests w ++ [request].
Proof. unfold requests. rewrite omap_app. reflexivity. Qed.

Lemma requests_slept (seconds : Q) : requests (w ++ [Slept seconds]) = requests w.
Proof. unfold requests. rewrite omap_app. apply app_nil_r. Qed.

Lemma requests_logged (line : string) : requests (w ++ [Logged line]) = requests w.
Proof. unfold requests. rewrite omap_app. apply app_nil_r. Qed.

Lemma sleeps_sent (request : OrderRequest) : sleeps (w ++ [Sent request]) = sleeps w.
Proof. unfold sleeps. rewrite omap_app. apply app_nil_r. Qed.

Lemma sleeps_slept (seconds : Q) :
  sleeps (w ++ [Slept seconds]) = sleeps w ++ [seconds].
Proof. unfold sleeps. rewrite omap_app. reflexivity. Qed.

Lemma sleeps_logged (line : string) : sleeps (w ++ [Logged line]) = sleeps w.
Proof. unfold sleeps. rewrite omap_app. apply app_nil_r. Qed.

Lemma errors_logged_sent (request : OrderRequest) :
  errors_logged (w ++ [Sent request]) = errors_logged w.
Proof. unfold errors_logged. rewrite omap_app. apply app_nil_r. Qed.

Lemma errors_logged_slept (seconds : Q) :
  errors_logged (w ++ [Slept seconds]) = errors_logged w.
Proof. unfold errors_logged. rewrite omap_app. apply app_nil_r. Qed.

Lemma errors_logged_logged (line : string) :
  errors_logged (w ++ [Logged line]) = errors_logged w ++ [line].
Proof. unfold errors_logged. rewrite omap_app. reflexivity. Qed.

End Worlds.

(** Reading the three projections of a world off its last event. *)
Ltac world_simpl :=
  repeat first
    [ rewrite requests_sent | rewrite requests_slept | rewrite requests_logged
    | rewrite sleeps_sent | rewrite sleeps_slept | rewrite sleeps_logged
    | rewrite errors_logged_sent | rewrite errors_logged_slept
    | rewrite errors_logged_logged ].

Section Chunking.
Import Brokerage Execution.

Lemma split_chunks_spec (fuel : nat) (chunk_size remaining : Z) (acc : list Z) :
  (1 <= chunk_size)%Z ->
  (remaining <= Z.of_nat fuel)%Z ->
  exists l,
    split_chunks fuel chunk_size remaining acc = Some (acc ++ l)
    /\ Zsum l = Z.max 0 remaining
    /\ Forall (fun c => 0 < c <= chunk_size)%Z l.
Proof.
  intros Hcs. revert remaining acc.
  induction fuel as [| fuel IH]; intros remaining acc Hfuel.
  - exists []. cbn. destruct (0 <? remaining)%Z eqn:E.
    + apply Z.ltb_lt in E. lia.
    + apply Z.ltb_ge in E. rewrite app_nil_r.
      repeat split; [lia | constructor].
  - cbn [split_chunks]. destruct (0 <? remaining)%Z eqn:E.
    + apply Z.ltb_lt in E.
      destruct (IH (remaining - Z.min chunk_size remaining)%Z
                   (acc ++ [Z.min chunk_size remaining]))
        as (l & Hl & Hsum & Hall); [lia |].
      exists (Z.min chunk_size remaining :: l).
      rewrite Hl, <- app_assoc. repeat split.
      * unfold Zsum in *. cbn [fold_right]. rewrite Hsum. lia.
      * constructor; [lia | exact Hall].
    + apply Z.ltb_ge in E. exists []. rewrite app_nil_r.
      repeat split; [cbn; lia | constructor].
Qed.

(** The chunking loop always terminates: the chunks add up to the order
    quantity and none exceeds the chunk size. *)
Lemma order_chunks_total (qty : Z) :
  exists chunks,
    order_chunks qty = Some chunks
    /\ Zsum chunks = Z.max 0 qty
    /\ Forall (fun c => 0 < c <= Z.max 1 (qty / 5))%Z chunks.
Proof.
  unfold order_chunks.
  destruct (split_chunks_spec (Z.to_nat qty) (Z.max 1 (qty / 5)) qty [])
    as (l & Hl & Hsum & Hall); [lia | lia |].
  exists l. auto.
Qed.

Lemma order_chunks_nonempty (qty : Z) :
  (0 < qty)%Z -> exists c rest, order_chunks qty = Some (c :: rest).
Proof.
  intros Hq. destruct (order_chunks_total qty) as (chunks & Heq & Hsum & _).
  destruct chunks as [| c rest]; [cbn in Hsum; lia | eauto].
Qed.

Variable self : ExecutionEngine.

Lemma requests_paced (w : World) (reqs : list OrderRequest) :
  requests (w ++ paced reqs) = requests w ++ reqs.
Proof.
  unfold requests. rewrite omap_app. f_equal.
  induction reqs as [| request rest IH]; [reflexivity |].
  destruct rest as [| next rest]; [reflexivity |].
  change (paced (request :: next :: rest))
    with (Sent request :: Slept 2 :: paced (next :: rest)).
  cbn [omap list_omap]. f_equal. exact IH.
Qed.

Lemma sleeps_paced (w : World) (reqs : list OrderRequest) :
  sleeps (w ++ paced reqs) = sleeps w ++ repeat 2 (length reqs - 1).
Proof.
  unfold sleeps. rewrite omap_app. f_equal.
  induction reqs as [| request rest IH]; [reflexivity |].
  destruct rest as [| next rest]; [reflexivity |].
  change (paced (request :: next :: rest))
    with (Sent request :: Slept 2 :: paced (next :: rest)).
  cbn [omap list_omap]. rewrite IH.
  cbn [length Nat.sub repeat]. rewrite Nat.sub_0_r. reflexivity.
Qed.

Lemma errors_logged_paced (w : World) (reqs : list OrderRequest) :
  errors_logged (w ++ paced reqs) = errors_logged w.
Proof.
  unfold errors_logged. rewrite omap_app.
  rewrite <- (app_nil_r (omap _ w)) at 2. f_equal.
  induction reqs as [| request rest IH]; [reflexivity |].
  destruct rest as [| next rest]; [reflexivity |].
  change (paced (request :: next :: rest))
    with (Sent request :: Slept 2 :: paced (next :: rest)).
  cbn [omap list_omap]. exact IH.
Qed.

Section ChunkLoop.
Hypothesis brokerage_accepts : accepts (trading_client self).

(** One chunk: a market request at an even position, a limit request at an
    odd one, and nothing else. *)
Lemma chunk_step_request (order : Order) (i : nat) (w : World) :
  exists r request,
    (if Nat.even i
     then aggressive_execution self order
     else passive_execution self order) w = (inr r, w ++ [Sent request])
    /\ req_qty request = quantity order
    /\ for_order order request
    /\ has_limit request = Nat.odd i.
Proof.
  rewrite <- Nat.negb_even. destruct (Nat.even i); cbn [negb].
  - unfold aggressive_execution, bind, submit, ret.
    match goal with
    | |- context [submit_order ?c ?s ?r] =>
        destruct (brokerage_accepts s r) as [id ->]
    end.
    do 2 eexists. split; [reflexivity |]. unfold for_order, has_limit. cbn. auto 10.
  - unfold passive_execution, bind, submit, ret.
    match goal with
    | |- context [submit_order ?c ?s ?r] =>
        destruct (brokerage_accepts s r) as [id ->]
    end.
    do 2 eexists. split; [reflexivity |]. unfold for_order, has_limit. cbn. auto 10.
Qed.

(** The chunk loop submits one request per chunk, in order, and sleeps
    between consecutive submissions only. *)
Lemma execute_chunks_requests (order : Order) (chunks : list Z) :
  forall (n i : nat) (results : list ExecutionResult) (w : World),
    n = (i + length chunks)%nat ->
    exists rs reqs,
      execute_chunks self order n i chunks results w
      = (inr (results ++ rs), w ++ paced reqs)
      /\ length rs = length chunks
      /\ map req_qty reqs = chunks
      /\ Forall (for_order order) reqs
      /\ map has_limit reqs = map Nat.odd (seq i (length chunks)).
Proof.
  induction chunks as [| chunk rest IH]; intros n i results w Hn.
  - exists [], []. cbn. rewrite !app_nil_r. repeat split; constructor.
  - cbn [execute_chunks]. unfold bind at 1.
    destruct (chunk_step_request (set_quantity order chunk) i w)
      as (r & request & -> & Hqty & Hfor & Hlim).
    cbn [quantity set_quantity] in Hqty.
    assert (Hfor0 : for_order order request) by exact Hfor.
    unfold bind at 1. destruct rest as [| chunk2 rest2].
    + assert (Hlast : (i <? n - 1)%nat = false).
      { apply Nat.ltb_ge. cbn in Hn. lia. }
      rewrite Hlast. unfold ret at 1. cbn [execute_chunks]. unfold ret.
      exists [r], [request]. cbn [paced length map seq].
      rewrite Hqty, Hlim. repeat split. constructor; [exact Hfor0 | constructor].
    + assert (Hmid : (i <? n - 1)%nat = true).
      { apply Nat.ltb_lt. cbn in Hn. lia. }
      rewrite Hmid. unfold asyncio_sleep at 1.
      destruct (IH n (S i) (results ++ [r]) ((w ++ [Sent request]) ++ [Slept 2]))
        as (rs & reqs & -> & Hlen & Hqty' & Hfor' & Hlim').
      { cbn in Hn |- *. lia. }
      destruct reqs as [| next reqs]; [discriminate Hqty' |].
      exists (r :: rs), (request :: next :: reqs).
      change (paced (request :: next :: reqs))
        with (Sent request :: Slept 2 :: paced (next :: reqs)).
      rewrite <- !app_assoc. cbn [app]. split; [reflexivity |].
      split; [cbn [length] in Hlen |- *; lia |].
      split; [cbn [map] in Hqty' |- *; rewrite Hqty, Hqty'; reflexivity |].
      split; [constructor; [exact Hfor0 | exact Hfor'] |].
      cbn [map length seq] in Hlim' |- *. rewrite Hlim, Hlim'. reflexivity.
Qed.

Lemma adaptive_run_accepted (order : Order) (w : World) :
  exists chunks results w' reqs,
    order_chunks (quantity order) = Some chunks
    /\ adaptive_execution self order w
       = (inr (SubmittedChunks (length chunks) results), w')
    /\ length results = length chunks
    /\ requests w' = requests w ++ reqs
    /\ map req_qty reqs = chunks
    /\ Zsum chunks = Z.max 0 (quantity order)
    /\ Forall (for_order order) reqs
    /\ map has_limit reqs = map Nat.odd (seq 0 (length chunks))
    /\ sleeps w' = sleeps w ++ repeat 2 (length chunks - 1)
    /\ errors_logged w' = errors_logged w
    /\ w' = w ++ paced reqs.
Proof.
  destruct (order_chunks_total (quantity order)) as (chunks & Hchunks & Hsum & _).
  destruct (execute_chunks_requests order chunks (length chunks) 0 [] w eq_refl)
    as (rs & reqs & Hrun & Hlen & Hqty & Hfor & Hlim).
  exists chunks, rs, (w ++ paced reqs), reqs.
  unfold adaptive_execution. rewrite Hchunks. unfold bind. rewrite Hrun.
  cbn [app]. unfold ret.
  rewrite requests_paced, sleeps_paced, errors_logged_paced.
  replace (length reqs) with (length chunks)
    by (rewrite <- Hqty; apply length_map).
  auto 15.
Qed.

End ChunkLoop.

(** The claim of C3 fails on the code: 23 // 5 is 4, so a 23-unit order is
    cut into six chunks and the delay runs five times. *)
Lemma adaptive_23_is_six_chunks :
  let out := adaptive_execution (init Scenario.client)
               (Scenario.order_of 23 buy) empty_world in
  order_chunks 23 = Some [4; 4; 4; 4; 4; 3]%Z
  /\ map req_qty (requests (snd out)) = [4; 4; 4; 4; 4; 3]%Z
  /\ length (sleeps (snd out)) = 5%nat
  /\ map req_qty (requests (snd out)) <> [5; 5; 5; 5; 3]%Z
  /\ length (sleeps (snd out)) <> 4%nat.
Proof.
  vm_compute. repeat split; intros H; discriminate H.
Qed.

(** C3 (amended).  Adaptive execution of an order of quantity 23 against a
    brokerage that takes every order submits six chunks 4,4,4,4,4,3, which
    add up to 23, reports six chunk results, and takes the two-second delay
    exactly five times: once after each of the first five submissions and
    not after the sixth. *)
Theorem adaptive_execution_of_23 (order : Order) (w : World) :
  accepts (trading_client self) ->
  quantity order = 23%Z ->
  exists results w',
    adaptive_execution self order w = (inr (SubmittedChunks 6 results), w')
    /\ length results = 6%nat
    /\ map req_qty (requests w') = map req_qty (requests w) ++ [4; 4; 4; 4; 4; 3]%Z
    /\ Zsum [4; 4; 4; 4; 4; 3]%Z = 23%Z
    /\ sleeps w' = sleeps w ++ [2; 2; 2; 2; 2]
    /\ exists r1 r2 r3 r4 r5 r6,
         w' = w ++ [Sent r1; Slept 2; Sent r2; Slept 2; Sent r3; Slept 2;
                    Sent r4; Slept 2; Sent r5; Slept 2; Sent r6]
         /\ map req_qty [r1; r2; r3; r4; r5; r6] = [4; 4; 4; 4; 4; 3]%Z.
Proof.
  intros Hacc Hq.
  destruct (adaptive_run_accepted Hacc order w)
    as (chunks & results & w' & reqs & Hchunks & Hrun & Hlen & Hreq & Hqty & _
        & _ & _ & Hsl & _ & Htrace).
  rewrite Hq in Hchunks.
  change (order_chunks 23) with (Some [4; 4; 4; 4; 4; 3]%Z) in Hchunks.
  injection Hchunks as <-. cbn [length] in Hrun, Hlen, Hsl.
  exists results, w'. split; [exact Hrun |]. split; [exact Hlen |].
  split; [rewrite Hreq, map_app, Hqty; reflexivity |].
  split; [reflexivity |]. split; [exact Hsl |].
  destruct reqs as [| r1 [| r2 [| r3 [| r4 [| r5 [| r6 [| r7 rest]]]]]]];
    try discriminate Hqty.
  exists r1, r2, r3, r4, r5, r6. split; [exact Htrace | exact Hqty].
Qed.

End Chunking.

Lemma adaptive_execution_of_23_witness :
  exists results w',
    Execution.adaptive_execution (Execution.init Scenario.client)
      (Scenario.order_of 23 Brokerage.buy) Execution.empty_world
    = (inr (Execution.SubmittedChunks 6 results), w')
    /\ length results = 6%nat
    /\ map Brokerage.req_qty (Execution.requests w') = [4; 4; 4; 4; 4; 3]%Z
    /\ Execution.Zsum [4; 4; 4; 4; 4; 3]%Z = 23%Z
    /\ Execution.sleeps w' = [2; 2; 2; 2; 2]
    /\ exists r1 r2 r3 r4 r5 r6,
         w' = [Execution.Sent r1; Execution.Slept 2; Execution.Sent r2;
               Execution.Slept 2; Execution.Sent r3; Execution.Slept 2;
               Execution.Sent r4; Execution.Slept 2; Execution.Sent r5;
               Execution.Slept 2; Execution.Sent r6]
         /\ map Brokerage.req_qty [r1; r2; r3; r4; r5; r6] = [4; 4; 4; 4; 4; 3]%Z.
Proof.
  apply (adaptive_execution_of_23 (Execution.init Scenario.client)
           (Scenario.order_of 23 Brokerage.buy) Execution.empty_world).
  - intros sent request. eexists. reflexivity.
  - reflexivity.
Defined.

Section Execute.
Import Brokerage Execution.

Variable self : ExecutionEngine.

Lemma refused_strategy_raises (e : exn) (order : Order) (w : World) :
  refuses (trading_client self) e ->
  (0 < quantity order)%Z ->
  exists w', run_strategy self order w = (inl e, w').
Proof.
  intros Href Hq. unfold run_strategy. cbv zeta.
  destruct (select_execution_strategy order).
  - unfold aggressive_execution, bind, submit. rewrite Href. eauto.
  - unfold passive_execution, bind, submit. rewrite Href. eauto.
  - unfold adaptive_execution.
    destruct (order_chunks_nonempty _ Hq) as (c & rest & ->).
    unfold bind at 1. cbn [execute_chunks Nat.even]. unfold bind at 1.
    unfold aggressive_execution, bind, submit. rewrite Href. eauto.
Qed.

(** C6.  [execute_order] always returns a result and never an exception;
    when the chosen strategy raises [e] the result is the failed one
    carrying [str e]; in particular a brokerage that refuses every
    submission with [e] yields that failed result for any order of positive
    quantity. *)
Theorem execute_order_never_raises (order : Order) (w : World) :
  (exists r w', execute_order self order w = (inr r, w'))
  /\ (forall e w', run_strategy self order w = (inl e, w') ->
      fst (execute_order self order w) = inr (Failed (str e))
      /\ status (Failed (str e)) = "failed")
  /\ (forall e, refuses (trading_client self) e -> (0 < quantity order)%Z ->
      fst (execute_order self order w) = inr (Failed (str e))).
Proof.
  assert (Hcatch : forall e w', run_strategy self order w = (inl e, w') ->
                     fst (execute_order self order w) = inr (Failed (str e))).
  { intros e w' Hrun. unfold execute_order, try_except. rewrite Hrun.
    reflexivity. }
  split; [| split].
  - unfold execute_order, try_except.
    destruct (run_strategy self order w) as [[e | r] w'] eqn:Hrun.
    + do 2 eexists. unfold bind, logger_error, ret. reflexivity.
    + eauto.
  - intros e w' Hrun. split; [eapply Hcatch; exact Hrun | reflexivity].
  - intros e Href Hq.
    destruct (refused_strategy_raises e order w Href Hq) as [w' Hrun].
    eapply Hcatch; exact Hrun.
Qed.

End Execute.

Lemma execute_order_never_raises_witness :
  fst (Execution.execute_order (Execution.init Scenario.rejecting_client)
         (Scenario.order_of 23 Brokerage.buy) Execution.empty_world)
  = inr (Execution.Failed "order rejected").
Proof.
  apply (proj2 (proj2 (execute_order_never_raises
                         (Execution.init Scenario.rejecting_client)
                         (Scenario.order_of 23 Brokerage.buy)
                         Execution.empty_world))
           (BrokerError "order rejected")).
  - intros sent request. reflexivity.
  - reflexivity.
Defined.

(** ** Price lookup *)

Section PriceLookup.
Import Brokerage.

(** The claim of C7 fails on the code: with no position on record the
    brokerage lookup raises, both engines answer 100.0, and the risk engine
    sizes an order of 100 units from it. *)
Lemma price_lookup_substitutes_constant :
  get_position Scenario.client "X" = inl (BrokerError "position does not exist")
  /\ Risk.get_current_price (Risk.init Scenario.client) "X" = 100.0
  /\ Execution.get_current_price (Execution.init Scenario.client) "X" = 100.0
  /\ match Risk.optimize_portfolio 0.01 (Risk.init Scenario.client) Scenario.signals with
     | inr orders => map Risk.quantity orders = [100%Z]
     | inl _ => False
     end.
Proof. vm_compute. repeat split. Qed.

(** C7 (amended).  In both engines the current-price lookup returns the
    position's current price when the brokerage lookup answers and the
    constant 100.0 when it raises; a failing account fetch is surfaced,
    [optimize_portfolio] failing with the same exception. *)
Theorem price_lookup_fallback (risk : Risk.RiskManagementEngine)
    (exec : Execution.ExecutionEngine) (sym : string) :
  (forall e, get_position (Risk.trading_client risk) sym = inl e ->
             Risk.get_current_price risk sym = 100.0)
  /\ (forall position, get_position (Risk.trading_client risk) sym = inr position ->
                       Risk.get_current_price risk sym = current_price position)
  /\ (forall e, get_position (Execution.trading_client exec) sym = inl e ->
                Execution.get_current_price exec sym = 100.0)
  /\ (forall position, get_position (Execution.trading_client exec) sym = inr position ->
                       Execution.get_current_price exec sym = current_price position)
  /\ (forall e daily_vol signals,
         get_account (Risk.trading_client risk) = inl e ->
         Risk.optimize_portfolio daily_vol risk signals = inl e).
Proof.
  unfold Risk.get_current_price, Execution.get_current_price.
  repeat split.
  - intros e ->. reflexivity.
  - intros position ->. reflexivity.
  - intros e ->. reflexivity.
  - intros position ->. reflexivity.
  - intros e daily_vol signals H. unfold Risk.optimize_portfolio. rewrite H.
    reflexivity.
Qed.

Lemma price_lookup_fallback_witness :
  Risk.get_current_price (Risk.init Scenario.client) "X" = 100.0
  /\ Execution.get_current_price (Execution.init Scenario.client) "X" = 100.0.
Proof.
  pose proof (price_lookup_fallback (Risk.init Scenario.client)
                (Execution.init Scenario.client) "X") as (Hr & _ & He & _).
  split.
  - apply (Hr (BrokerError "position does not exist")). reflexivity.
  - apply (He (BrokerError "position does not exist")). reflexivity.
Defined.

End PriceLookup.

(** ** Wash-sale window *)

Section WashSale.
Import Brokerage Compliance.

Lemma deque_append_last {A} (maxlen : Z) (x : A) (d : list A) :
  (0 < maxlen)%Z -> x ∈ deque_append maxlen x d.
Proof.
  intros Hmax. unfold deque_append.
  rewrite drop_app, length_app. cbn [length].
  apply elem_of_app. right.
  replace (length d + 1 - Z.to_nat maxlen - length d)%nat with 0%nat by lia.
  cbn. apply list_elem_of_here.
Qed.

Lemma deque_append_elem {A} (maxlen : Z) (x y : A) (d : list A) :
  y ∈ deque_append maxlen x d -> y ∈ d \/ y = x.
Proof.
  unfold deque_append. intros H.
  apply (subseteq_drop _ (d ++ [x])) in H.
  apply elem_of_app in H as [H | H]; [left; exact H | right].
  apply list_elem_of_singleton in H. exact H.
Qed.

Lemma timedelta_days_after (t : Z) (n : Z) : timedelta_days (t + days n) t = n.
Proof.
  unfold timedelta_days, days.
  replace (t + n * usec_per_day - t)%Z with (n * usec_per_day)%Z by lia.
  apply Z.div_mul. discriminate.
Qed.

Lemma timedelta_days_mono (now t1 t2 : Z) :
  (t1 <= t2)%Z -> (timedelta_days now t2 <= timedelta_days now t1)%Z.
Proof.
  intros H. unfold timedelta_days.
  apply Z.div_le_mono; [reflexivity | lia].
Qed.

Lemma get_is_intro (d : gmap string pyval) (key s : string) :
  d !! key = Some (VStr s) -> get_is d key s = true.
Proof. intros H. unfold get_is. rewrite H. apply String.eqb_refl. Qed.

Variable self : ComplianceEngine.
Variable T : Z.
Variable sold : gmap string pyval.
Variable order : Order.

Hypothesis sold_symbol : sold !! "symbol" = Some (VStr (symbol order)).
Hypothesis sold_side : sold !! "side" = Some (VStr "sell").
Hypothesis order_buys : side order = buy.

Lemma surveillance_logs_sale :
  exists logged,
    post_trade_surveillance self T sold = inr logged
    /\ (exists trade, trade ∈ trade_log logged
                      /\ timestamp trade = T /\ execution trade = sold)
    /\ (forall trade, trade ∈ trade_log logged ->
                      trade ∈ trade_log self
                      \/ (timestamp trade = T /\ execution trade = sold)).
Proof.
  unfold post_trade_surveillance. rewrite sold_symbol.
  eexists. split; [reflexivity |]. cbn [trade_log]. split.
  - eexists. split; [apply deque_append_last; lia |]. split; reflexivity.
  - intros trade Hin. apply deque_append_elem in Hin as [Hin | ->]; auto.
Qed.

Lemma flagged_within_window (logged : ComplianceEngine) (now : Z) :
  (exists trade, trade ∈ trade_log logged
                 /\ timestamp trade = T /\ execution trade = sold) ->
  (timedelta_days now T <= 30)%Z ->
  is_wash_sale logged now order = true.
Proof.
  intros (trade & Hin & Hts & Hex) Hdays. unfold is_wash_sale.
  apply existsb_exists. exists trade. split.
  - apply list_elem_of_In. unfold recent_trades.
    apply list_elem_of_filter. split; [| exact Hin].
    rewrite Hex, Hts, (get_is_intro _ _ _ sold_symbol). cbn [andb].
    apply Z.leb_le. exact Hdays.
  - rewrite Hex, (get_is_intro _ _ _ sold_side), order_buys. reflexivity.
Qed.

Lemma not_flagged_outside_window (logged : ComplianceEngine) (now : Z) :
  no_sell_after logged (symbol order) T ->
  (30 < timedelta_days now T)%Z ->
  is_wash_sale logged now order = false.
Proof.
  intros Hlog Hdays. apply not_true_is_false. intros Hflag.
  unfold is_wash_sale in Hflag. apply existsb_exists in Hflag as (trade & Hin & Hsell).
  apply list_elem_of_In in Hin. unfold recent_trades in Hin.
  apply list_elem_of_filter in Hin as [Hrecent Hin].
  apply andb_true_iff in Hrecent as [Hsym Hage].
  apply andb_true_iff in Hsell as [Hsell _].
  unfold no_sell_after in Hlog. rewrite Forall_forall in Hlog.
  pose proof (Hlog trade Hin Hsym Hsell) as Hts.
  apply Z.leb_le in Hage.
  pose proof (timedelta_days_mono now _ _ Hts). lia.
Qed.

(** C4.  Once surveillance has logged a sell of the order's instrument at
    time T, no other sell of it being more recent, the wash-sale test flags
    a buy of it n whole days later exactly when n is at most 30: it flags
    the buy 15 days later and not the one 40 days later.  The pre-trade
    check never gets to that test: its first step, the pattern-day-trader
    check, reads [os.getenv] in a module that does not import [os], so the
    pre-trade check raises NameError for every order at every time and
    flags nothing. *)
Theorem pre_trade_check_raises_before_wash_sale :
  no_sell_after self (symbol order) T ->
  exists logged,
    post_trade_surveillance self T sold = inr logged
    /\ (forall n, is_wash_sale logged (T + days n) order = true <-> (n <= 30)%Z)
    /\ is_wash_sale logged (T + days 15) order = true
    /\ is_wash_sale logged (T + days 40) order = false
    /\ (forall get_account now,
          pre_trade_check logged (paper_client_account get_account) now order
          = inl (NameError "os")).
Proof.
  intros Hold.
  destruct surveillance_logs_sale as (logged & Hlog & Hnew & Hall).
  assert (Hin : forall n, (n <= 30)%Z ->
                          is_wash_sale logged (T + days n) order = true).
  { intros n Hn. apply flagged_within_window; [exact Hnew |].
    rewrite timedelta_days_after. exact Hn. }
  assert (Hout : forall n, (30 < n)%Z ->
                           is_wash_sale logged (T + days n) order = false).
  { intros n Hn.
    apply not_flagged_outside_window; [| rewrite timedelta_days_after; exact Hn].
    unfold no_sell_after in *. rewrite Forall_forall in Hold |- *.
    intros trade Htrade Hsym Hsell.
    destruct (Hall trade Htrade) as [Hin' | [Hts _]]; [auto | lia]. }
  exists logged. split; [exact Hlog |]. split; [| split; [| split]].
  - intros n. split; [| apply Hin].
    intros Hflag. destruct (Z.le_gt_cases n 30) as [Hn | Hn]; [exact Hn |].
    rewrite Hout in Hflag by lia. discriminate Hflag.
  - apply Hin. lia.
  - apply Hout. lia.
  - intros get_account now. reflexivity.
Qed.

End WashSale.

Lemma pre_trade_check_raises_before_wash_sale_witness :
  exists logged,
    Compliance.post_trade_surveillance Compliance.init Scenario.T0 Scenario.sell_X
    = inr logged
    /\ Compliance.is_wash_sale logged (Scenario.T0 + Compliance.days 15)
         (Scenario.order_of 23 Brokerage.buy) = true
    /\ Compliance.is_wash_sale logged (Scenario.T0 + Compliance.days 30)
         (Scenario.order_of 23 Brokerage.buy) = true
    /\ Compliance.is_wash_sale logged (Scenario.T0 + Compliance.days 31)
         (Scenario.order_of 23 Brokerage.buy) = false
    /\ Compliance.pre_trade_check logged
         (Compliance.paper_client_account (inr Scenario.account))
         (Scenario.T0 + Compliance.days 15) (Scenario.order_of 23 Brokerage.buy)
       = inl (NameError "os").
Proof.
  destruct (pre_trade_check_raises_before_wash_sale Compliance.init Scenario.T0
              Scenario.sell_X (Scenario.order_of 23 Brokerage.buy))
    as (logged & Hlog & Hiff & H15 & H40 & Hpre).
  - reflexivity.
  - reflexivity.
  - reflexivity.
  - constructor.
  - exists logged. split; [exact Hlog |]. split; [exact H15 |].
    split; [apply Hiff; lia |]. split; [| apply Hpre].
    apply not_true_is_false. intros Hflag. apply Hiff in Hflag. lia.
Defined.

(** * Further properties of the risk engine *)

Section RiskConstraintsMore.
Import Brokerage Risk.

Lemma int_half_div (q : Z) : (0 <= q)%Z -> int (inject_Z q * 0.5) = (q / 2)%Z.
Proof.
  intros Hq. unfold int.
  assert (Hx : 0 <= inject_Z q * 0.5).
  { assert (inject_Z 0 <= inject_Z q) by (rewrite <- Zle_Qle; exact Hq).
    change (inject_Z 0) with 0 in *. lra. }
  apply Qle_bool_iff in Hx. rewrite Hx.
  unfold Qfloor, Qmult, inject_Z. cbn [Qnum Qden].
  change (Z.pos (1 * 10)) with 10%Z.
  rewrite <- (Z.div_mul_cancel_r q 2 5) by lia. reflexivity.
Qed.

Lemma int_half_nonpos (q : Z) : (q <= 0)%Z -> (int (inject_Z q * 0.5) <= 0)%Z.
Proof.
  intros Hq. unfold int.
  assert (Hx : inject_Z q * 0.5 <= 0).
  { assert (inject_Z q <= inject_Z 0) by (rewrite <- Zle_Qle; exact Hq).
    change (inject_Z 0) with 0 in *. lra. }
  destruct (Qle_bool 0 (inject_Z q * 0.5)) eqn:E.
  - change 0%Z with (Qfloor 0). apply Qfloor_resp_le. exact Hx.
  - change 0%Z with (Qceiling 0). apply Qceiling_resp_le. exact Hx.
Qed.

Lemma constraints_output_positive (self : RiskManagementEngine)
    (orders : list Order) (risk_metrics : RiskMetrics) :
  Forall (fun o => (0 < quantity o)%Z)
         (apply_risk_constraints self orders risk_metrics).
Proof.
  unfold apply_risk_constraints. cbv zeta.
  apply Forall_forall. intros o Hin.
  apply list_elem_of_filter in Hin as [Hpos _]. exact Hpos.
Qed.

(** X1.  When the concentration index exceeds 0.3 the constraint pass
    returns at most three orders, and in every case each returned order has
    a positive quantity. *)
Theorem concentration_keeps_three (self : RiskManagementEngine)
    (orders : list Order) (risk_metrics : RiskMetrics) :
  Forall (fun o => (0 < quantity o)%Z)
         (apply_risk_constraints self orders risk_metrics)
  /\ (0.3 < concentration_risk risk_metrics ->
      (length (apply_risk_constraints self orders risk_metrics) <= 3)%nat).
Proof.
  split; [apply constraints_output_positive |].
  unfold apply_risk_constraints. cbv zeta.
  - intros Hc. apply Qltb_lt in Hc. unfold Qgtb. rewrite Hc.
    eapply Nat.le_trans; [apply length_filter |].
    rewrite length_take. lia.
Qed.

Lemma concentration_keeps_three_witness :
  (length (apply_risk_constraints (init Scenario.client)
             (repeat (Scenario.order_of 7 buy) 5)
             {| var_95 := 0; var_99 := 0; expected_shortfall := 0;
                current_leverage := 0; concentration_risk := 1;
                correlation_risk := 0.5 |}) <= 3)%nat.
Proof.
  apply (proj2 (concentration_keeps_three (init Scenario.client)
                  (repeat (Scenario.order_of 7 buy) 5) _)).
  reflexivity.
Defined.

(** X2.  Under leverage scaling, with every proposed quantity at most
    2^53 (the range in which the product of the quantity and 0.5 is exact in
    binary floating point), an order survives only if it was proposed with a
    quantity of at least 2, and then with exactly half of it rounded down; a
    proposed quantity of 1 or less is dropped. *)
Theorem leverage_scaling_halves_and_drops (self : RiskManagementEngine)
    (orders : list Order) (risk_metrics : RiskMetrics) :
  max_leverage self * 0.8 < current_leverage risk_metrics ->
  Forall (fun o => (quantity o <= 2 ^ 53)%Z) orders ->
  Forall (fun o' =>
            exists o, o ∈ orders
                      /\ (2 <= quantity o <= 2 ^ 53)%Z
                      /\ o' = set_quantity o (quantity o / 2)%Z)
         (apply_risk_constraints self orders risk_metrics).
Proof.
  intros Hlev Hexact. rewrite Forall_forall in Hexact.
  apply Forall_forall. intros o' Hin.
  destruct (scaled_order_in_output _ _ _ _ Hlev Hin) as (o & Ho & ->).
  pose proof (constraints_output_positive self orders risk_metrics) as Hpos.
  rewrite Forall_forall in Hpos. specialize (Hpos _ Hin).
  cbn [quantity set_quantity] in Hpos.
  destruct (Z.le_gt_cases (quantity o) 0) as [Hneg | Hq].
  { pose proof (int_half_nonpos _ Hneg). lia. }
  rewrite int_half_div in Hpos |- * by lia.
  exists o. split; [exact Ho | split; [| reflexivity]].
  split; [| apply Hexact, Ho].
  destruct (Z.le_gt_cases 2 (quantity o)) as [H2 | H1]; [exact H2 |].
  exfalso. assert (E : quantity o = 1%Z) by lia.
  rewrite E in Hpos. discriminate Hpos.
Qed.

Lemma leverage_scaling_halves_and_drops_witness :
  Forall (fun o' =>
            exists o, o ∈ [Scenario.order_of 23 buy; Scenario.order_of 1 sell]
                      /\ (2 <= quantity o <= 2 ^ 53)%Z
                      /\ o' = set_quantity o (quantity o / 2)%Z)
         (apply_risk_constraints (init Scenario.client)
            [Scenario.order_of 23 buy; Scenario.order_of 1 sell] Scenario.levered).
Proof.
  apply leverage_scaling_halves_and_drops; [reflexivity |].
  repeat constructor; cbn; lia.
Defined.

End RiskConstraintsMore.

Section KellyMore.
Import Risk.

Lemma kelly_value (confidence : Q) :
  confidence - (1 - confidence) / 2.0 == 1.5 * confidence - 0.5.
Proof. field. Qed.

Lemma kelly_saturates (expected_return confidence : Q) :
  0 < expected_return -> 0.6 <= confidence ->
  calculate_kelly_fraction expected_return confidence == 0.1.
Proof.
  intros He Hc. unfold calculate_kelly_fraction, Qleb, max2, min2, Qgtb.
  destruct (Qle_bool expected_return 0) eqn:E1.
  { apply Qle_bool_iff in E1. lra. }
  destruct (Qle_bool confidence 0.5) eqn:E2.
  { apply Qle_bool_iff in E2. lra. }
  cbn [orb].
  assert (Hk : 0.4 <= confidence - (1 - confidence) / 2.0)
    by (rewrite kelly_value; lra).
  revert Hk. generalize (confidence - (1 - confidence) / 2.0). intros k Hk.
  qcases; lra.
Qed.

(** X3.  With a positive expected return and a confidence above 0.5 the
    Kelly fraction is positive; it is a quarter of the Kelly value
    confidence - (1 - confidence) / 2 up to confidence 0.6, and from
    confidence 0.6 on it is pinned at the 0.1 cap. *)
Theorem kelly_closed_form (expected_return confidence : Q) :
  0 < expected_return -> 0.5 < confidence ->
  0 < calculate_kelly_fraction expected_return confidence
  /\ (confidence <= 0.6 ->
      calculate_kelly_fraction expected_return confidence
      == (confidence - (1 - confidence) / 2) * 0.25)
  /\ (0.6 <= confidence ->
      calculate_kelly_fraction expected_return confidence == 0.1).
Proof.
  intros He Hc. split; [| split].
  - unfold calculate_kelly_fraction, Qleb, max2, min2, Qgtb.
    destruct (Qle_bool expected_return 0) eqn:E1.
    { apply Qle_bool_iff in E1. lra. }
    destruct (Qle_bool confidence 0.5) eqn:E2.
    { apply Qle_bool_iff in E2. lra. }
    cbn [orb].
    assert (Hk : 0.25 < confidence - (1 - confidence) / 2.0)
      by (rewrite kelly_value; lra).
    revert Hk. generalize (confidence - (1 - confidence) / 2.0). intros k Hk.
    qcases; lra.
  - intros Hle. unfold calculate_kelly_fraction, Qleb, max2, min2, Qgtb.
    destruct (Qle_bool expected_return 0) eqn:E1.
    { apply Qle_bool_iff in E1. lra. }
    destruct (Qle_bool confidence 0.5) eqn:E2.
    { apply Qle_bool_iff in E2. lra. }
    cbn [orb].
    assert (Hk : confidence - (1 - confidence) / 2.0
                 == confidence - (1 - confidence) / 2) by field.
    assert (Hk1 : 0.25 < confidence - (1 - confidence) / 2.0 <= 0.4)
      by (rewrite kelly_value; lra).
    rewrite Hk in Hk1.
    revert Hk Hk1.
    generalize (confidence - (1 - confidence) / 2.0),
               (confidence - (1 - confidence) / 2).
    intros k k' Hk Hk1. qcases; lra.
  - apply kelly_saturates. exact He.
Qed.

Lemma kelly_closed_form_witness :
  calculate_kelly_fraction 0.016 0.8 == 0.1
  /\ calculate_kelly_fraction 0.016 0.55 == (0.55 - (1 - 0.55) / 2) * 0.25.
Proof.
  split.
  - apply (proj2 (proj2 (kelly_closed_form 0.016 0.8 eq_refl eq_refl))).
    intros H; discriminate H.
  - apply (proj1 (proj2 (kelly_closed_form 0.016 0.55 eq_refl eq_refl))).
    intros H; discriminate H.
Defined.

End KellyMore.

Section OrderOrigin.
Import Brokerage Risk.

Lemma size_signal_origin (self : RiskManagementEngine)
    (buying_power portfolio_value : Q) (sym : string) (sg : Alpha.Signal)
    (new : list Order) :
  size_signal self buying_power portfolio_value sym sg = inr new ->
  Forall (fun o => symbol o = sym /\ signal o = sg
                   /\ (0 < quantity o)%Z
                   /\ 0 < Alpha.sig_expected_return sg
                   /\ Alpha.sig_direction sg <> 0%Z
                   /\ side o = (if (0 <? Alpha.sig_direction sg)%Z then buy else sell)
                   /\ type o = "limit" /\ time_in_force o = "day") new.
Proof.
  unfold size_signal.
  destruct (Alpha.sig_direction sg =? 0)%Z eqn:Hd; [intros [= <-]; constructor |].
  apply Z.eqb_neq in Hd.
  set (k := calculate_kelly_fraction _ _).
  destruct (Qgtb _ 100) eqn:Hbig; [| intros [= <-]; constructor].
  apply Qltb_lt in Hbig.
  assert (He : 0 < Alpha.sig_expected_return sg).
  { destruct (Qlt_le_dec 0 (Alpha.sig_expected_return sg)) as [H | H]; [exact H |].
    exfalso. unfold k in Hbig.
    rewrite (kelly_zero_when_no_edge _ (Alpha.sig_confidence sg) (or_introl H)) in Hbig.
    pose proof (min3_le_1 (0.0 * portfolio_value)
                  (max_position_size self * portfolio_value)
                  (buying_power * 0.9)) as Hmin.
    lra. }
  unfold rbind. destruct (fdiv _ _) as [e | ratio]; [discriminate |].
  destruct (0 <? int ratio)%Z eqn:Hq; intros [= <-]; constructor; [| constructor].
  cbn [symbol signal quantity side type time_in_force].
  apply Z.ltb_lt in Hq. repeat split; auto.
Qed.

Lemma size_signals_origin (self : RiskManagementEngine)
    (buying_power portfolio_value : Q) (P : Order -> Prop)
    (signals : odict Alpha.Signal) :
  (forall sym sg new,
      (sym, sg) ∈ signals ->
      size_signal self buying_power portfolio_value sym sg = inr new ->
      Forall P new) ->
  forall orders out,
    Forall P orders ->
    size_signals self buying_power portfolio_value signals orders = inr out ->
    Forall P out.
Proof.
  induction signals as [| [sym sg] rest IH]; intros Hstep orders out Hacc; cbn.
  - intros [= <-]. exact Hacc.
  - destruct (size_signal self buying_power portfolio_value sym sg) as [e | new] eqn:E;
      cbn [rbind]; [discriminate |].
    apply IH.
    + intros sym' sg' new' Hin. apply Hstep. apply list_elem_of_further. exact Hin.
    + apply Forall_app. split; [exact Hacc |].
      eapply Hstep; [apply list_elem_of_here | exact E].
Qed.

Lemma constraints_keep_fields (self : RiskManagementEngine) (orders : list Order)
    (risk_metrics : RiskMetrics) :
  Forall (fun o' => exists o q, o ∈ orders /\ o' = set_quantity o q)
         (apply_risk_constraints self orders risk_metrics).
Proof.
  unfold apply_risk_constraints. cbv zeta.
  apply Forall_forall. intros o' Hin.
  apply list_elem_of_filter in Hin as [_ Hin].
  assert (Hsrc : o' ∈ orders
                 \/ o' ∈ (fun order =>
                            set_quantity order (int (inject_Z (quantity order) * 0.5)))
                         <$> orders).
  { destruct (Qgtb (current_leverage risk_metrics) _);
      destruct (Qgtb (concentration_risk risk_metrics) _);
      try apply subseteq_take in Hin; auto. }
  destruct Hsrc as [Hsrc | Hsrc].
  - exists o', (quantity o'). split; [exact Hsrc |]. destruct o'; reflexivity.
  - apply list_elem_of_fmap in Hsrc as (o & -> & Ho). eauto.
Qed.

Lemma optimize_orders_built (daily_vol : Q)
    (self : RiskManagementEngine) (signals : odict Alpha.Signal)
    (orders : list Order) :
  optimize_portfolio daily_vol self signals = inr orders ->
  Forall (built_from signals) orders.
Proof.
  unfold optimize_portfolio, rbind.
  destruct (get_account (trading_client self)) as [e | account]; [discriminate |].
  destruct (calculate_portfolio_risk daily_vol self) as [e | rm]; [discriminate |].
  destruct (size_signals _ _ _ _ _) as [e | sized_orders] eqn:E; [discriminate |].
  intros [= <-].
  assert (Hsized : Forall (fun o => (symbol o, signal o) ∈ signals
                     /\ 0.6 < Alpha.sig_confidence (signal o)
                     /\ 0 < Alpha.sig_expected_return (signal o)
                     /\ Alpha.sig_direction (signal o) <> 0%Z
                     /\ side o = (if (0 <? Alpha.sig_direction (signal o))%Z
                                  then buy else sell)
                     /\ type o = "limit" /\ time_in_force o = "day") sized_orders).
  { eapply size_signals_origin; [| constructor | exact E].
    intros sym sg new Hin Hnew.
    apply list_elem_of_filter in Hin as [Hconf Hin]. cbn [snd] in Hconf.
    apply Qltb_lt in Hconf.
    eapply Forall_impl; [eapply size_signal_origin; exact Hnew |].
    cbn beta. intros o (-> & -> & Hq & He & Hd & Hs & Ht & Hf).
    repeat split; auto. }
  pose proof (constraints_output_positive self sized_orders rm) as Hpos.
  pose proof (constraints_keep_fields self sized_orders rm) as Hsrc.
  rewrite Forall_forall in Hpos, Hsrc, Hsized. apply Forall_forall.
  intros o' Hin. destruct (Hsrc _ Hin) as (o & q & Ho & ->).
  specialize (Hpos _ Hin). destruct (Hsized _ Ho) as (H1 & H2 & H3 & H4 & H5 & H6 & H7).
  unfold built_from. cbn [symbol signal quantity side type time_in_force set_quantity] in *.
  repeat split; auto.
Qed.

(** X4.  Every order returned by [optimize_portfolio] stems from an entry
    of the signal dict whose confidence exceeds 0.6, whose expected return
    is positive and whose direction is not neutral; it carries that entry's
    key as symbol, a positive quantity, the side given by the sign of the
    direction, and is a day limit order. *)
Theorem orders_stem_from_strong_signals (daily_vol : Q)
    (self : RiskManagementEngine) (signals : odict Alpha.Signal)
    (orders : list Order) :
  optimize_portfolio daily_vol self signals = inr orders ->
  Forall (built_from signals) orders.
Proof. apply optimize_orders_built. Qed.

Lemma orders_stem_from_strong_signals_witness :
  Forall (built_from Scenario.signals)
         [ {| symbol := "X"; quantity := 100; side := buy; type := "limit";
              time_in_force := "day"; signal := Scenario.generated_X |} ].
Proof.
  apply (orders_stem_from_strong_signals 0.01 (init Scenario.client)).
  vm_compute. reflexivity.
Defined.

End OrderOrigin.

(** * Further properties of the signal engine *)

Section SignalsMore.
Import Brokerage Alpha.

Lemma ml_expected_return_shape (micro tech : gmap string fval) :
  exists r, 0.5 <= r <= 1
            /\ expected_return (ml_predict micro tech)
               = inject_Z (direction (ml_predict micro tech)) * r * 0.02.
Proof.
  exists (raw_confidence (ml_tally micro tech)).
  split; [apply ml_tally_confidence_range | reflexivity].
Qed.

Lemma positive_return_is_long (micro tech : gmap string fval) :
  0 < expected_return (ml_predict micro tech) ->
  direction (ml_predict micro tech) = 1%Z.
Proof.
  destruct (ml_expected_return_shape micro tech) as (r & Hr & ->).
  destruct (ml_direction_cases micro tech) as [-> | [-> | ->]]; [| | reflexivity].
  - change (inject_Z (-1)) with (-1). intros H. lra.
  - change (inject_Z 0) with 0. intros H. lra.
Qed.

(** X5.  The expected return of a prediction has the sign of its
    direction (zero for a neutral one) and never exceeds 2% in magnitude. *)
Theorem expected_return_sign_and_size (micro tech : gmap string fval) :
  let p := ml_predict micro tech in
  (0 < expected_return p <-> direction p = 1%Z)
  /\ (expected_return p < 0 <-> direction p = (-1)%Z)
  /\ (expected_return p == 0 <-> direction p = 0%Z)
  /\ -0.02 <= expected_return p <= 0.02.
Proof.
  cbv zeta.
  destruct (ml_expected_return_shape micro tech) as (r & Hr & ->).
  destruct (ml_direction_cases micro tech) as [-> | [-> | ->]].
  - change (inject_Z (-1)) with (-1). repeat split; try lra; try discriminate.
    all: intros H; lra.
  - change (inject_Z 0) with 0. repeat split; try lra; try discriminate.
    all: intros H; lra.
  - change (inject_Z 1) with 1. repeat split; try lra; try discriminate.
    all: intros H; lra.
Qed.

Lemma expected_return_sign_and_size_witness :
  direction (ml_predict Scenario.micro_all Scenario.tech_all) = 1%Z.
Proof.
  apply (proj1 (proj1 (expected_return_sign_and_size
                         Scenario.micro_all Scenario.tech_all))).
  reflexivity.
Defined.

Lemma generate_signals_forall (cm ct : string -> res features) (now : Z)
    (P : string * Signal -> Prop) :
  (forall sym s, signal_for cm ct now sym = inr s -> P (sym, s)) ->
  forall (universe : list string) (st : odict Signal * list Signal),
    Forall P (fst st) ->
    Forall P (fst (fold_left (generate_step cm ct now) universe st)).
Proof.
  intros Hstep universe. induction universe as [| sym rest IH]; intros st Hst; cbn.
  - exact Hst.
  - apply IH. unfold generate_step.
    destruct (signal_for cm ct now sym) as [e | s] eqn:E; [exact Hst |].
    cbn [fst]. apply Forall_odict_set; [apply Hstep; exact E | exact Hst].
Qed.

Lemma signal_for_fields (cm ct : string -> res features) (now : Z)
    (sym : string) (s : Signal) :
  signal_for cm ct now sym = inr s ->
  exists micro tech,
    cm sym = inr micro /\ ct sym = inr tech
    /\ symbol s = sym
    /\ sig_direction s = direction (ml_predict micro tech)
    /\ sig_confidence s = confidence (ml_predict micro tech)
    /\ sig_expected_return s = expected_return (ml_predict micro tech).
Proof.
  unfold signal_for, rbind.
  destruct (cm sym) as [e | micro]; [discriminate |].
  destruct (ct sym) as [e | tech]; [discriminate |].
  intros [= <-]. exists micro, tech. cbn. auto 10.
Qed.

(** X6.  Fed with the dict that [generate_signals] returns, whatever the
    feature computations, [optimize_portfolio] only ever returns buy orders
    on long signals: a short signal has a negative expected return and is
    sized to nothing. *)
Theorem pipeline_orders_are_buys (cm ct : string -> res features) (now : Z)
    (history : list Signal) (universe : list string)
    (daily_vol : Q) (self : Risk.RiskManagementEngine) (orders : list Risk.Order) :
  Risk.optimize_portfolio daily_vol self
    (fst (generate_signals cm ct now history universe)) = inr orders ->
  Forall (fun o => Risk.side o = buy /\ sig_direction (Risk.signal o) = 1%Z) orders.
Proof.
  intros Hopt. apply optimize_orders_built in Hopt.
  assert (Hsig : Forall (fun kv : string * Signal =>
                           0 < sig_expected_return (snd kv) ->
                           sig_direction (snd kv) = 1%Z)
                        (fst (generate_signals cm ct now history universe))).
  { unfold generate_signals. apply generate_signals_forall; [| constructor].
    intros sym s Hs. cbn [snd].
    destruct (signal_for_fields _ _ _ _ _ Hs) as (micro & tech & _ & _ & _ & -> & _ & ->).
    apply positive_return_is_long. }
  rewrite Forall_forall in Hsig. eapply Forall_impl; [exact Hopt |].
  intros o (Hin & _ & _ & He & _ & Hside & _).
  specialize (Hsig _ Hin He). cbn [snd] in Hsig.
  rewrite Hsig in Hside. split; [exact Hside | exact Hsig].
Qed.

Lemma pipeline_orders_are_buys_witness :
  Forall (fun o => Risk.side o = buy /\ sig_direction (Risk.signal o) = 1%Z)
         [ {| Risk.symbol := "X"; Risk.quantity := 100; Risk.side := buy;
              Risk.type := "limit"; Risk.time_in_force := "day";
              Risk.signal := Scenario.generated_X |} ].
Proof.
  apply (pipeline_orders_are_buys (fun _ => inr ∅)
           (fun _ => inr {[ "rsi" := Fin 20 ]}) 0 [] ["X"] 0.01
           (Risk.init Scenario.client)).
  vm_compute. reflexivity.
Defined.

Lemma no_vpin_score (micro tech : gmap string fval) :
  micro !! "vpin" = None -> (-1 <= score (ml_tally micro tech))%Z.
Proof.
  intros Hv. unfold ml_tally, get. rewrite Hv. cbn [default].
  change (fltb (Fin 0) (Fin 0.3)) with true. unfold fgtb.
  repeat match goal with
         | |- context [fltb ?a ?b] => destruct (fltb a b)
         end; cbn; lia.
Qed.

Lemma no_vpin_not_short (micro tech : gmap string fval) :
  micro !! "vpin" = None ->
  direction (ml_predict micro tech) = 0%Z \/ direction (ml_predict micro tech) = 1%Z.
Proof.
  intros Hv. pose proof (no_vpin_score micro tech Hv) as Hs.
  unfold ml_predict; cbn [direction].
  destruct (1 <? _)%Z; [auto |].
  destruct (_ <? -1)%Z eqn:E; [| auto].
  apply Z.ltb_lt in E. lia.
Qed.

Section Engine.
Variable data_client : DataClient.
Variables kyle roll amihud impact trend : list Bar -> res fval.
Variable sqrt : Q -> Q.

Lemma microstructure_has_no_vpin (sym : string) :
  calculate_microstructure_alpha data_client kyle roll amihud impact sym
  !! "vpin" = None.
Proof.
  unfold calculate_microstructure_alpha, rbind.
  destruct (get_stock_bars _ _ _) as [e | data]; [apply lookup_empty |].
  destruct (data !! sym) as [df |]; [| apply lookup_empty].
  destruct (length df <? 10)%nat; [apply lookup_empty |].
  destruct (kyle df); [apply lookup_empty |].
  destruct (roll df); [apply lookup_empty |].
  destruct (amihud df); [apply lookup_empty |].
  destruct (impact df); [apply lookup_empty |].
  vm_compute. reflexivity.
Qed.

(** X7.  The engine never emits a short signal.  The scoring reads the key
    'vpin', the microstructure dict stores that feature under
    'volume_imbalance', so the informed-trading test always adds one point
    and the score cannot fall below -1: every generated signal is long or
    neutral. *)
Theorem engine_never_short (now : Z) (history : list Signal)
    (universe : list string) :
  Forall (fun kv : string * Signal =>
            sig_direction (snd kv) = 0%Z \/ sig_direction (snd kv) = 1%Z)
         (fst (engine_generate_signals data_client kyle roll amihud impact
                 trend sqrt now history universe)).
Proof.
  unfold engine_generate_signals, generate_signals.
  apply generate_signals_forall; [| constructor].
  intros sym s Hs. cbn [snd].
  destruct (signal_for_fields _ _ _ _ _ Hs)
    as (micro & tech & Hm & _ & _ & -> & _).
  injection Hm as <-. apply no_vpin_not_short, microstructure_has_no_vpin.
Qed.

End Engine.

End SignalsMore.

Section SignalDict.
Import Alpha.

Lemma odict_set_elem {V} (k : string) (v : V) (d : odict V) (kv : string * V) :
  kv ∈ odict_set k v d -> kv = (k, v) \/ kv ∈ d.
Proof.
  induction d as [| [k0 v0] d IH]; cbn.
  - intros H. apply list_elem_of_singleton in H. auto.
  - destruct (String.eqb k k0).
    + intros H. apply elem_of_cons in H as [H | H]; [auto |].
      right. apply elem_of_cons. auto.
    + intros H. apply elem_of_cons in H as [H | H].
      * right. apply elem_of_cons. auto.
      * destruct (IH H) as [? | ?]; [auto | right; apply elem_of_cons; auto].
Qed.

Lemma odict_set_here {V} (k : string) (v : V) (d : odict V) :
  (k, v) ∈ odict_set k v d.
Proof.
  induction d as [| [k0 v0] d IH]; cbn.
  - apply list_elem_of_here.
  - destruct (String.eqb k k0); apply elem_of_cons; auto.
Qed.

Lemma odict_set_other {V} (k : string) (v : V) (d : odict V) (kv : string * V) :
  fst kv <> k -> kv ∈ d -> kv ∈ odict_set k v d.
Proof.
  intros Hne. induction d as [| [k0 v0] d IH]; cbn; intros H.
  - inversion H.
  - destruct (String.eqb_spec k k0) as [-> | Hk].
    + apply elem_of_cons in H as [-> | H]; [cbn in Hne; congruence |].
      apply elem_of_cons. auto.
    + apply elem_of_cons in H as [-> | H]; apply elem_of_cons; auto.
Qed.

Lemma odict_set_keys {V} (k : string) (v : V) (d : odict V) :
  map fst (odict_set k v d)
  = if decide (k ∈ map fst d) then map fst d else map fst d ++ [k].
Proof.
  induction d as [| [k0 v0] d IH]; cbn.
  - case_decide as H; [inversion H | reflexivity].
  - destruct (String.eqb_spec k k0) as [-> | Hk]; cbn.
    + clear IH. case_decide as H; [reflexivity |].
      exfalso. apply H, list_elem_of_here.
    + rewrite IH. destruct (decide (k ∈ map fst d)) as [Hin | Hnin].
      * rewrite decide_True by (apply list_elem_of_further, Hin). reflexivity.
      * rewrite decide_False; [reflexivity |].
        intros H. apply elem_of_cons in H as [-> | H]; contradiction.
Qed.

Lemma odict_set_NoDup {V} (k : string) (v : V) (d : odict V) :
  NoDup (map fst d) -> NoDup (map fst (odict_set k v d)).
Proof.
  intros Hd. rewrite odict_set_keys.
  destruct (decide _) as [_ | Hnin]; [exact Hd |].
  apply NoDup_app. split; [exact Hd | split].
  - intros x Hx Hk. apply list_elem_of_singleton in Hk. subst. contradiction.
  - apply NoDup_singleton.
Qed.

Variables cm ct : string -> res features.
Variable now : Z.

Lemma generate_fold_spec (universe : list string) (st : odict Signal * list Signal)
    (seen : list string) :
  NoDup (map fst (fst st)) ->
  (forall sym s, (sym, s) ∈ fst st <->
                 sym ∈ seen /\ signal_for cm ct now sym = inr s) ->
  let out := fst (fold_left (generate_step cm ct now) universe st) in
  NoDup (map fst out)
  /\ (forall sym s, (sym, s) ∈ out <->
                    sym ∈ seen ++ universe /\ signal_for cm ct now sym = inr s).
Proof.
  revert st seen. induction universe as [| u rest IH]; intros st seen Hnd Hst; cbn.
  - split; [exact Hnd |]. intros sym s. rewrite app_nil_r. apply Hst.
  - specialize (IH (generate_step cm ct now st u) (seen ++ [u])).
    cbv zeta in IH. rewrite <- app_assoc in IH. cbn [app] in IH.
    apply IH; unfold generate_step.
    + destruct (signal_for cm ct now u); [exact Hnd |].
      cbn [fst]. apply odict_set_NoDup. exact Hnd.
    + intros sym s. rewrite elem_of_app, list_elem_of_singleton.
      destruct (signal_for cm ct now u) as [e | su] eqn:Eu; cbn [fst].
      * rewrite Hst. split; [intros [? ?]; auto |].
        intros [[Hin | ->] Hs]; [auto | congruence].
      * split.
        -- intros H. apply odict_set_elem in H as [[= -> ->] | H]; [auto |].
           apply Hst in H as [? ?]. auto.
        -- intros [Hin Hs]. destruct (String.eqb_spec sym u) as [-> | Hne].
           ++ rewrite Eu in Hs. injection Hs as <-. apply odict_set_here.
           ++ apply odict_set_other; [exact Hne |]. apply Hst.
              destruct Hin as [Hin | ->]; [auto | contradiction].
Qed.

(** X8.  The dict returned by [generate_signals] holds exactly the symbols
    of the universe whose signal could be computed, each once and with its
    own signal; a symbol whose feature computation raises is left out
    without disturbing the others. *)
Theorem generated_signals_are_the_computable_ones (history : list Signal)
    (universe : list string) :
  let out := fst (generate_signals cm ct now history universe) in
  NoDup (map fst out)
  /\ (forall sym s, (sym, s) ∈ out <->
                    sym ∈ universe /\ signal_for cm ct now sym = inr s)
  /\ Forall (fun kv => symbol (snd kv) = fst kv) out.
Proof.
  cbv zeta. unfold generate_signals.
  destruct (generate_fold_spec universe ([], history) []) as [Hnd Hspec].
  - constructor.
  - intros sym s. cbn. split; [intros H; inversion H | intros [H _]; inversion H].
  - cbn [app] in Hspec. split; [exact Hnd | split; [exact Hspec |]].
    apply Forall_forall. intros [sym s] Hin. cbn [fst snd].
    apply Hspec in Hin as [_ Hs].
    destruct (signal_for_fields _ _ _ _ _ Hs) as (_ & _ & _ & _ & H & _).
    exact H.
Qed.

End SignalDict.

Lemma generated_signals_are_the_computable_ones_witness :
  ("X", Scenario.generated_X)
  ∈ fst (Alpha.generate_signals
           (fun sym => if String.eqb sym "BAD" then inl (DataError "no bars") else inr ∅)
           (fun _ => inr {[ "rsi" := Fin 20 ]}) 0 [] ["BAD"; "X"]).
Proof.
  apply (proj1 (proj2 (generated_signals_are_the_computable_ones
                         (fun sym => if String.eqb sym "BAD"
                                     then inl (DataError "no bars") else inr ∅)
                         (fun _ => inr {[ "rsi" := Fin 20 ]}) 0 [] ["BAD"; "X"]))).
  split.
  - right. left.
  - vm_compute. reflexivity.
Defined.

Section Oscillator.
Import Alpha.

Lemma fold_Qplus_nonneg (l : list Q) (a : Q) :
  Forall (Qle 0) l -> 0 <= a -> 0 <= fold_left Qplus l a.
Proof.
  intros Hl. revert a. induction Hl as [| x l Hx Hl IH]; intros a Ha; cbn.
  - exact Ha.
  - apply IH. lra.
Qed.

Lemma Qsum_nonneg (l : list Q) : Forall (Qle 0) l -> 0 <= Qsum l.
Proof. intros Hl. apply fold_Qplus_nonneg; [exact Hl | lra]. Qed.

Lemma rolling_mean_last_nonneg (window : nat) (s : list Q) :
  Forall (Qle 0) s ->
  rolling_mean_last window s = NaN
  \/ exists m, rolling_mean_last window s = Fin m /\ 0 <= m.
Proof.
  intros Hs. unfold rolling_mean_last.
  destruct (_ || _) eqn:E; [left; reflexivity | right].
  apply orb_false_iff in E as [_ Hw]. apply Nat.eqb_neq in Hw.
  eexists. split; [reflexivity |].
  apply Qle_shift_div_l.
  - change 0 with (inject_Z 0). rewrite <- Zlt_Qlt. lia.
  - rewrite Qmult_0_l. apply Qsum_nonneg. unfold last_n. apply Forall_drop. exact Hs.
Qed.

(** X9.  Whatever the price series, for a period of at least 1,
    [calculate_rsi] returns a finite number between 0 and 100: never NaN,
    never an infinity. *)
Theorem rsi_between_0_and_100 (prices : list Q) (period : nat) :
  (0 < period)%nat ->
  exists q, calculate_rsi prices period = Fin q /\ 0 <= q <= 100.
Proof.
  intros _. unfold calculate_rsi.
  destruct (length prices <? period + 1)%nat;
    [exists 50.0; split; [reflexivity | lra] |].
  cbv zeta.
  set (gains := 0 :: map _ (diff prices)).
  set (losses := 0 :: map _ (diff prices)).
  assert (Hg : Forall (Qle 0) gains).
  { constructor; [lra |]. apply Forall_forall. intros x Hx.
    apply list_elem_of_fmap in Hx as (d & -> & _).
    unfold Qgtb. qcases; lra. }
  assert (Hl : Forall (Qle 0) losses).
  { constructor; [lra |]. apply Forall_forall. intros x Hx.
    apply list_elem_of_fmap in Hx as (d & -> & _).
    qcases; lra. }
  destruct (rolling_mean_last_nonneg period gains Hg) as [-> | (g & -> & Hg0)];
    [exists 50.0; split; [reflexivity | lra] |].
  destruct (rolling_mean_last_nonneg period losses Hl) as [-> | (l & -> & Hl0)];
    [exists 50.0; split; [reflexivity | lra] |].
  cbn [fdivide]. destruct (Qeq_bool l 0) eqn:El.
  - destruct (Qeq_bool g 0) eqn:Eg; [exists 50.0; split; [reflexivity | lra] |].
    destruct (Qltb 0 g) eqn:Egp.
    + cbn. eexists. split; [reflexivity | lra].
    + apply Qltb_ge in Egp. apply Qeq_bool_neq in Eg. exfalso. apply Eg. lra.
  - apply Qeq_bool_neq in El.
    assert (Hr : 0 <= g / l).
    { apply Qle_shift_div_l; [lra | lra]. }
    cbn [fadd fdivide].
    destruct (Qeq_bool (1 + g / l) 0) eqn:E1.
    { apply Qeq_bool_iff in E1. lra. }
    cbn. eexists. split; [reflexivity |].
    assert (0 <= 100 / (1 + g / l) <= 100).
    { split.
      - apply Qle_shift_div_l; lra.
      - apply Qle_shift_div_r; lra. }
    lra.
Qed.

Lemma rsi_between_0_and_100_witness :
  exists q,
    calculate_rsi (map inject_Z [1; 2; 3; 4; 5; 6; 7; 8; 9; 10; 11; 12; 13; 14; 13; 16]%Z) 14
    = Fin q /\ 0 <= q <= 100.
Proof. apply rsi_between_0_and_100. lia. Defined.

End Oscillator.

Section VolumeImbalance.
Import Alpha.

Lemma fold_Qplus_unit_bound (l : list Q) (a : Q) :
  Forall (fun v => 0 <= v <= 1) l ->
  a <= fold_left Qplus l a <= a + inject_Z (Z.of_nat (length l)).
Proof.
  intros Hl. revert a. induction Hl as [| x l [Hx0 Hx1] Hl IH]; intros a.
  - cbn [fold_left]. change (inject_Z (Z.of_nat (length (@nil Q)))) with 0. lra.
  - cbn [fold_left length]. specialize (IH (a + x)).
    rewrite Nat2Z.inj_succ, <- Z.add_1_r, inject_Z_plus.
    change (inject_Z 1) with 1. lra.
Qed.

Lemma mean_unit_bound (l : list Q) :
  l <> [] -> Forall (fun v => 0 <= v <= 1) l -> 0 <= mean l <= 1.
Proof.
  intros Hne Hl. unfold mean, Qsum.
  pose proof (fold_Qplus_unit_bound l 0 Hl) as [Hlo Hhi].
  assert (Hn : 0 < inject_Z (Z.of_nat (length l))).
  { change 0 with (inject_Z 0). rewrite <- Zlt_Qlt.
    destruct l; [contradiction | cbn; lia]. }
  split.
  - apply Qle_shift_div_l; [exact Hn | lra].
  - apply Qle_shift_div_r; [exact Hn | lra].
Qed.

Lemma imbalance_unit_bound (b s : Q) :
  0 <= b -> 0 <= s -> 0 < b + s -> 0 <= Qabs (b - s) / (b + s) <= 1.
Proof.
  intros Hb Hs Hpos. split.
  - apply Qle_shift_div_l; [exact Hpos |]. rewrite Qmult_0_l. apply Qabs_nonneg.
  - apply Qle_shift_div_r; [exact Hpos |]. rewrite Qmult_1_l.
    apply Qabs_Qle_condition. lra.
Qed.

Lemma vpin_step_invariant (bucket_size : Q) (st : vpin_state) (row : Q * Q * Q) :
  0 <= snd (fst row) -> 0 <= snd row ->
  vpin_invariant st -> vpin_invariant (vpin_step bucket_size st row).
Proof.
  destruct row as [[volume b] s]. cbn [fst snd]. intros Hb Hs (Hbuy & Hsell & Hvals).
  unfold vpin_step, vpin_invariant.
  destruct (Qleb _ _); cbn [buy_volume sell_volume vpin_values].
  - split; [lra | split; [lra |]].
    destruct (Qgtb _ 0) eqn:E; [| exact Hvals].
    apply Qltb_lt in E. apply Forall_app. split; [exact Hvals |].
    constructor; [| constructor]. apply imbalance_unit_bound; lra.
  - split; [lra | split; [lra | exact Hvals]].
Qed.

Lemma vpin_rows_nonneg (df : list Bar) :
  Forall (fun bar => 0 <= bar_volume bar) df ->
  Forall (fun row : Q * Q * Q => 0 <= snd (fst row) /\ 0 <= snd row) (vpin_rows df).
Proof.
  intros Hdf. unfold vpin_rows. generalize (pct_change (map bar_close df)).
  induction Hdf as [| bar df Hbar Hdf IH]; intros changes; [constructor |].
  destruct changes as [| c changes]; [constructor |].
  cbn [zip_with map]. constructor; [| apply IH].
  cbn [fst snd]. split.
  - destruct (fgtb c (Fin 0)); lra.
  - destruct (fltb c (Fin 0)); lra.
Qed.

Lemma vpin_fold_invariant (bucket_size : Q) (rows : list (Q * Q * Q))
    (st : vpin_state) :
  Forall (fun row : Q * Q * Q => 0 <= snd (fst row) /\ 0 <= snd row) rows ->
  vpin_invariant st ->
  vpin_invariant (fold_left (vpin_step bucket_size) rows st).
Proof.
  intros Hrows. revert st. induction Hrows as [| row rows [Hb Hs] Hrows IH];
    intros st Hst; cbn; [exact Hst |].
  apply IH. apply vpin_step_invariant; assumption.
Qed.

(** X10.  For bars with non-negative volumes the volume-imbalance estimate
    of [calculate_vpin] lies between 0 and 1; with fewer than 50 bars it is
    0. *)
Theorem vpin_between_0_and_1 (df : list Bar) :
  Forall (fun bar => 0 <= bar_volume bar) df ->
  0 <= calculate_vpin df <= 1
  /\ ((length df < 50)%nat -> calculate_vpin df = 0.0).
Proof.
  intros Hdf. unfold calculate_vpin.
  destruct (length df <? 50)%nat eqn:E.
  - split; [lra | reflexivity].
  - split; [| intros H; apply Nat.ltb_ge in E; lia].
    cbv zeta.
    match goal with
    | |- context [fold_left (vpin_step ?b) ?rows ?st] =>
        assert (Hinv : vpin_invariant (fold_left (vpin_step b) rows st))
    end.
    { apply vpin_fold_invariant; [apply vpin_rows_nonneg; exact Hdf |].
      unfold vpin_invariant; cbn [buy_volume sell_volume vpin_values].
      split; [lra | split; [lra | constructor]]. }
    destruct Hinv as (_ & _ & Hvals).
    destruct (vpin_values _) as [| v values] eqn:Ev; [lra |].
    apply mean_unit_bound; [discriminate | exact Hvals].
Qed.

Lemma vpin_between_0_and_1_witness :
  calculate_vpin
    [ {| bar_close := 10; bar_high := 11; bar_low := 9; bar_volume := 100;
         bar_trade_count := 5; bar_vwap := 10 |} ] = 0.0.
Proof.
  apply vpin_between_0_and_1.
  - constructor; [discriminate | constructor].
  - cbn. lia.
Defined.

End VolumeImbalance.

(** * Further properties of the execution engine *)

Section ChunkCount.
Import Brokerage Execution.

Lemma split_chunks_length (fuel : nat) (chunk_size remaining : Z) (acc : list Z) :
  (1 <= chunk_size)%Z ->
  (remaining <= Z.of_nat fuel)%Z ->
  exists l,
    split_chunks fuel chunk_size remaining acc = Some (acc ++ l)
    /\ (0 < remaining ->
        (Z.of_nat (length l) - 1) * chunk_size < remaining
        <= Z.of_nat (length l) * chunk_size)%Z
    /\ (remaining <= 0 -> l = [])%Z.
Proof.
  intros Hcs. revert remaining acc.
  induction fuel as [| fuel IH]; intros remaining acc Hfuel.
  - exists []. cbn. destruct (0 <? remaining)%Z eqn:E.
    + apply Z.ltb_lt in E. lia.
    + rewrite app_nil_r. repeat split; [lia | lia].
  - cbn [split_chunks]. destruct (0 <? remaining)%Z eqn:E.
    + apply Z.ltb_lt in E.
      destruct (IH (remaining - Z.min chunk_size remaining)%Z
                   (acc ++ [Z.min chunk_size remaining]))
        as (l & Hl & Hlen & Hnil); [lia |].
      exists (Z.min chunk_size remaining :: l).
      rewrite Hl, <- app_assoc. split; [reflexivity |]. split; [| lia].
      intros _. cbn [length]. rewrite Nat2Z.inj_succ.
      destruct (Z.le_gt_cases remaining chunk_size) as [Hle | Hgt].
      * rewrite Hnil by lia. cbn [length]. lia.
      * specialize (Hlen ltac:(lia)). nia.
    + apply Z.ltb_ge in E. exists []. rewrite app_nil_r.
      repeat split; [lia | lia].
Qed.

(** X11.  The number of chunks an order is cut into depends on its
    quantity: a quantity below 5 gives one chunk per unit, a multiple of 5
    gives exactly five chunks, and any other quantity from 6 on gives
    between six and nine. *)
Theorem chunk_count (qty : Z) :
  exists chunks,
    order_chunks qty = Some chunks
    /\ ((0 <= qty < 5)%Z -> Z.of_nat (length chunks) = qty)
    /\ ((5 <= qty)%Z -> (qty mod 5 = 0)%Z -> length chunks = 5%nat)
    /\ ((5 <= qty)%Z -> (qty mod 5 <> 0)%Z -> (6 <= length chunks <= 9)%nat).
Proof.
  unfold order_chunks.
  destruct (split_chunks_length (Z.to_nat qty) (Z.max 1 (qty / 5)) qty [])
    as (l & Hl & Hlen & Hnil); [lia | lia |].
  exists l. split; [exact Hl |].
  pose proof (Z.div_mod qty 5 ltac:(lia)) as Hdm.
  pose proof (Z.mod_pos_bound qty 5 ltac:(lia)) as Hmod.
  split; [| split].
  - intros [H0 H5].
    destruct (Z.eq_dec qty 0) as [-> | Hne]; [rewrite Hnil by lia; reflexivity |].
    specialize (Hlen ltac:(lia)).
    assert (Hd : (qty / 5 = 0)%Z) by (apply Z.div_small; lia).
    rewrite Hd in Hlen. change (Z.max 1 0) with 1%Z in Hlen. lia.
  - intros H5 Hm. specialize (Hlen ltac:(lia)).
    assert (Hc : (1 <= qty / 5)%Z) by (apply Z.div_le_lower_bound; lia).
    rewrite Z.max_r in Hlen by lia. rewrite Hm in Hdm. nia.
  - intros H5 Hm. specialize (Hlen ltac:(lia)).
    assert (Hc : (1 <= qty / 5)%Z) by (apply Z.div_le_lower_bound; lia).
    rewrite Z.max_r in Hlen by lia. split; nia.
Qed.

Lemma chunk_count_witness :
  exists chunks,
    order_chunks 23 = Some chunks /\ (6 <= length chunks <= 9)%nat.
Proof.
  destruct (chunk_count 23) as (chunks & Heq & _ & _ & Hrange).
  exists chunks. split; [exact Heq |].
  apply Hrange; [lia | discriminate].
Defined.

End ChunkCount.

Section AdaptiveExecution.
Import Brokerage Execution.

Variable self : ExecutionEngine.
Hypothesis brokerage_accepts : accepts (trading_client self).

(** X12.  Against a brokerage that takes every order, adaptive execution
    of any order submits one request per chunk, in order, for the order's
    symbol and side; the chunk quantities add up to the order quantity; the
    requests alternate between market (even positions, from 0) and limit
    (odd positions); the events it adds to the world are exactly the
    submissions with one two-second delay between each two consecutive ones
    and none after the last; the result reports the chunk count and one
    result per chunk. *)
Theorem adaptive_execution_accepted (order : Order) (w : World) :
  exists chunks results w' reqs,
    order_chunks (quantity order) = Some chunks
    /\ adaptive_execution self order w
       = (inr (SubmittedChunks (length chunks) results), w')
    /\ length results = length chunks
    /\ requests w' = requests w ++ reqs
    /\ map req_qty reqs = chunks
    /\ Zsum chunks = Z.max 0 (quantity order)
    /\ Forall (for_order order) reqs
    /\ map has_limit reqs = map Nat.odd (seq 0 (length chunks))
    /\ sleeps w' = sleeps w ++ repeat 2 (length chunks - 1)
    /\ errors_logged w' = errors_logged w
    /\ w' = w ++ paced reqs.
Proof. apply (adaptive_run_accepted self brokerage_accepts). Qed.

End AdaptiveExecution.

Lemma adaptive_execution_accepted_witness :
  exists chunks results w' reqs,
    Execution.order_chunks 23 = Some chunks
    /\ Execution.adaptive_execution (Execution.init Scenario.client)
         (Scenario.order_of 23 Brokerage.buy) Execution.empty_world
       = (inr (Execution.SubmittedChunks (length chunks) results), w')
    /\ Execution.requests w' = reqs
    /\ map Execution.has_limit reqs = map Nat.odd (seq 0 (length chunks))
    /\ w' = Execution.paced reqs.
Proof.
  destruct (adaptive_execution_accepted (Execution.init Scenario.client)
              (fun sent request => ex_intro _ _ eq_refl)
              (Scenario.order_of 23 Brokerage.buy) Execution.empty_world)
    as (chunks & results & w' & reqs & H1 & H2 & _ & H4 & _ & _ & _ & H8 & _ & _ & H11).
  exists chunks, results, w', reqs. auto.
Defined.

Section PartialSubmission.
Import Brokerage Execution.

Lemma two_chunks_at_least (qty : Z) :
  (2 <= qty)%Z ->
  exists c1 c2 rest, order_chunks qty = Some (c1 :: c2 :: rest).
Proof.
  intros Hq. unfold order_chunks.
  destruct (split_chunks_length (Z.to_nat qty) (Z.max 1 (qty / 5)) qty [])
    as (l & Hl & Hlen & _); [lia | lia |].
  cbn [app] in Hl. rewrite Hl. specialize (Hlen ltac:(lia)).
  pose proof (Z.div_mod qty 5 ltac:(lia)) as Hdm.
  pose proof (Z.mod_pos_bound qty 5 ltac:(lia)) as Hmod.
  destruct l as [| c1 [| c2 rest]]; [cbn in Hlen; lia | | eauto].
  exfalso. cbn [length] in Hlen. change (Z.of_nat 1) with 1%Z in Hlen. lia.
Qed.

(** X13.  A failed result does not mean that nothing reached the market.
    When the brokerage takes the first request and refuses every later one
    with [e], adaptive execution of an order of two units or more returns
    the failed result carrying [e] after the first chunk has been submitted
    as a market order, the delay taken once and the second chunk refused. *)
Theorem failed_after_partial_submission (self : ExecutionEngine) (order : Order)
    (w : World) (e : exn) :
  select_execution_strategy order = ADAPTIVE ->
  (2 <= quantity order)%Z ->
  requests w = [] ->
  (forall request, exists id, submit_order (trading_client self) [] request = inr id) ->
  (forall sent request, sent <> [] ->
                        submit_order (trading_client self) sent request = inl e) ->
  exists w' first second,
    execute_order self order w = (inr (Failed (str e)), w')
    /\ requests w' = [first; second]
    /\ has_limit first = false /\ has_limit second = true
    /\ (0 < req_qty first)%Z
    /\ sleeps w' = sleeps w ++ [2].
Proof.
  intros Hstrat Hq Hw Hfirst Hlater.
  destruct (two_chunks_at_least _ Hq) as (c1 & c2 & rest & Hchunks).
  destruct (order_chunks_total (quantity order)) as (chunks & Heq & _ & Hall).
  rewrite Hchunks in Heq. injection Heq as <-.
  apply Forall_cons in Hall as [[Hc1 _] _].
  unfold execute_order, try_except, run_strategy. rewrite Hstrat. cbv zeta.
  unfold adaptive_execution. rewrite Hchunks.
  unfold bind at 1. cbn [execute_chunks Nat.even length].
  unfold bind at 1. unfold aggressive_execution at 1.
  unfold bind at 1. unfold submit at 1. rewrite Hw.
  match goal with
  | |- context [submit_order _ [] ?r] => destruct (Hfirst r) as [id ->]
  end.
  unfold ret at 1. unfold bind at 1.
  change (0 <? S (S (length rest)) - 1)%nat with true. cbv iota.
  unfold asyncio_sleep at 1.
  unfold passive_execution, bind, submit. world_simpl. rewrite Hw. cbn [app].
  rewrite Hlater by discriminate.
  unfold logger_error, ret.
  do 3 eexists. split; [reflexivity |]. world_simpl. rewrite Hw. cbn [app].
  split; [reflexivity |]. unfold has_limit. cbn. auto.
Qed.

End PartialSubmission.

Lemma failed_after_partial_submission_witness :
  exists w' first second,
    Execution.execute_order
      (Execution.init
         {| Brokerage.get_account := inr Scenario.account;
            Brokerage.get_all_positions := inr [];
            Brokerage.get_position := fun _ => inl (BrokerError "position does not exist");
            Brokerage.submit_order := fun sent _ =>
              match sent with
              | [] => inr "first"
              | _ => inl (BrokerError "order rejected")
              end |})
      (Scenario.order_of 23 Brokerage.buy) Execution.empty_world
    = (inr (Execution.Failed "order rejected"), w')
    /\ Execution.requests w' = [first; second].
Proof.
  destruct (failed_after_partial_submission
              (Execution.init
                 {| Brokerage.get_account := inr Scenario.account;
                    Brokerage.get_all_positions := inr [];
                    Brokerage.get_position :=
                      fun _ => inl (BrokerError "position does not exist");
                    Brokerage.submit_order := fun sent _ =>
                      match sent with
                      | [] => inr "first"
                      | _ => inl (BrokerError "order rejected")
                      end |})
              (Scenario.order_of 23 Brokerage.buy) Execution.empty_world
              (BrokerError "order rejected"))
    as (w' & first & second & Hrun & Hreq & _).
  - reflexivity.
  - cbn. lia.
  - reflexivity.
  - intros request. eexists. reflexivity.
  - intros sent request Hne. destruct sent; [contradiction | reflexivity].
  - exists w', first, second. auto.
Defined.

Section LimitPrice.
Import Brokerage Execution.

Lemma round_half_even_near (x : Q) :
  Qabs (inject_Z (round_half_even x) - x) <= 1 # 2.
Proof.
  unfold round_half_even. cbv zeta.
  pose proof (Qfloor_le x) as Hlo. pose proof (Qlt_floor x) as Hhi.
  rewrite inject_Z_plus in Hhi. change (inject_Z 1) with 1 in Hhi.
  apply Qabs_Qle_condition.
  destruct (Qltb (x - inject_Z (Qfloor x)) 0.5) eqn:E1.
  { apply Qltb_lt in E1. lra. }
  apply Qltb_ge in E1. unfold Qgtb.
  destruct (Qltb 0.5 (x - inject_Z (Qfloor x))) eqn:E2.
  { apply Qltb_lt in E2. rewrite inject_Z_plus. change (inject_Z 1) with 1. lra. }
  apply Qltb_ge in E2.
  destruct (Z.even (Qfloor x)).
  - lra.
  - rewrite inject_Z_plus. change (inject_Z 1) with 1. lra.
Qed.

Lemma round2_near (x : Q) : Qabs (round2 x - x) <= 0.005.
Proof.
  unfold round2. pose proof (round_half_even_near (x * 100)) as H.
  apply Qabs_Qle_condition in H. apply Qabs_Qle_condition.
  set (k := inject_Z (round_half_even (x * 100))) in *.
  assert (Hk : k / 100 == k * 0.01) by field.
  rewrite Hk. lra.
Qed.

(** X14.  Passive execution sends a single limit request for the whole
    order.  Its limit is a whole number of cents within half a cent of the
    price one basis point below the looked-up price for a buy, above it for
    a sell, and the result reports that price before rounding. *)
Theorem passive_limit_price (self : ExecutionEngine) (order : Order) (w : World) :
  let price := get_current_price self (symbol order) in
  let target := if Side_eqb (side order) buy
                then price * (1 - 0.0001) else price * (1 + 0.0001) in
  exists request limit cents,
    requests (snd (passive_execution self order w)) = requests w ++ [request]
    /\ req_qty request = quantity order
    /\ for_order order request
    /\ req_limit_price request = Some limit
    /\ limit = inject_Z cents / 100
    /\ Qabs (limit - target) <= 0.005
    /\ (forall r, fst (passive_execution self order w) = inr r ->
                  exists id, r = Submitted id "passive" (Some target)).
Proof.
  cbv zeta. unfold passive_execution, bind, submit, ret.
  match goal with
  | |- context [submit_order ?c ?s ?r] => destruct (submit_order c s r) as [e | id]
  end; cbn [fst snd]; rewrite requests_sent.
  - do 3 eexists. split; [reflexivity |]. unfold for_order. cbn.
    repeat split; [apply round2_near | discriminate].
  - do 3 eexists. split; [reflexivity |]. unfold for_order, ret. cbn.
    repeat split; [apply round2_near |]. intros r [= <-]. eauto.
Qed.

End LimitPrice.

Lemma passive_limit_price_witness :
  exists id,
    Execution.Submitted "X" "passive" (Some (100.0 * (1 - 0.0001)))
    = Execution.Submitted id "passive"
        (Some (Execution.get_current_price (Execution.init Scenario.client) "X"
               * (1 - 0.0001))).
Proof.
  destruct (passive_limit_price (Execution.init Scenario.client)
              (Scenario.order_of 23 Brokerage.buy) Execution.empty_world)
    as (request & limit & cents & _ & _ & _ & _ & _ & _ & Hres).
  apply Hres. reflexivity.
Defined.

Section AcceptedOrders.
Import Brokerage Execution.

Variable self : ExecutionEngine.
Hypothesis brokerage_accepts : accepts (trading_client self).

(** X15.  Against a brokerage that takes every order, [execute_order]
    returns a submitted result and logs no error, whatever the order; an
    order routed aggressively or passively causes exactly one request, for
    the full quantity. *)
Theorem execute_order_submitted (order : Order) (w : World) :
  exists r w',
    execute_order self order w = (inr r, w')
    /\ status r = "submitted"
    /\ errors_logged w' = errors_logged w
    /\ (select_execution_strategy order <> ADAPTIVE ->
        exists request,
          requests w' = requests w ++ [request]
          /\ req_qty request = quantity order
          /\ has_limit request
             = match select_execution_strategy order with
               | PASSIVE => true
               | _ => false
               end).
Proof.
  unfold execute_order, try_except, run_strategy. cbv zeta.
  destruct (select_execution_strategy order).
  - destruct (chunk_step_request self brokerage_accepts order 0 w)
      as (r & request & Hrun & Hqty & _ & Hlim).
    cbn [Nat.even] in Hrun. rewrite Hrun. exists r, (w ++ [Sent request]).
    split; [reflexivity |]. split; [| split; [apply errors_logged_sent |]].
    + unfold aggressive_execution, bind, submit, ret in Hrun.
      destruct (submit_order _ _ _); [discriminate |].
      injection Hrun as <- _. reflexivity.
    + intros _. exists request. rewrite requests_sent. auto.
  - destruct (chunk_step_request self brokerage_accepts order 1 w)
      as (r & request & Hrun & Hqty & _ & Hlim).
    cbn [Nat.even] in Hrun. rewrite Hrun. exists r, (w ++ [Sent request]).
    split; [reflexivity |]. split; [| split; [apply errors_logged_sent |]].
    + unfold passive_execution, bind, submit, ret in Hrun.
      destruct (submit_order _ _ _); [discriminate |].
      injection Hrun as <- _. reflexivity.
    + intros _. exists request. rewrite requests_sent. auto.
  - destruct (adaptive_run_accepted self brokerage_accepts order w)
      as (chunks & results & w' & reqs & _ & Hrun & _ & _ & _ & _ & _ & _ & _ & Herr & _).
    rewrite Hrun. exists (SubmittedChunks (length chunks) results), w'.
    split; [reflexivity |]. split; [reflexivity |]. split; [exact Herr |].
    intros H. contradiction.
Qed.

End AcceptedOrders.

Lemma execute_order_submitted_witness :
  exists r w',
    Execution.execute_order (Execution.init Scenario.client)
      (Scenario.order_of 2000 Brokerage.sell) Execution.empty_world = (inr r, w')
    /\ Execution.status r = "submitted"
    /\ exists request,
         Execution.requests w' = [request]
         /\ Brokerage.req_qty request = 2000%Z
         /\ Execution.has_limit request = true.
Proof.
  destruct (execute_order_submitted (Execution.init Scenario.client)
              (fun sent request => ex_intro _ _ eq_refl)
              (Scenario.order_of 2000 Brokerage.sell) Execution.empty_world)
    as (r & w' & Hrun & Hst & _ & Hreq).
  exists r, w'. split; [exact Hrun | split; [exact Hst |]].
  apply Hreq. discriminate.
Defined.

(** * Further properties of the compliance engine *)

Section WashSaleMore.
Import Brokerage Compliance.

Lemma is_wash_sale_iff (self : ComplianceEngine) (now : Z) (order : Order) :
  is_wash_sale self now order = true
  <-> side order = buy
      /\ exists trade, trade ∈ trade_log self
                       /\ get_is (execution trade) "symbol" (symbol order) = true
                       /\ get_is (execution trade) "side" "sell" = true
                       /\ (timedelta_days now (timestamp trade) <= 30)%Z.
Proof.
  unfold is_wash_sale, recent_trades. rewrite existsb_exists. split.
  - intros (trade & Hin & Hsell).
    apply list_elem_of_In, list_elem_of_filter in Hin as [Hrecent Hin].
    apply andb_true_iff in Hrecent as [Hsym Hage]. apply Z.leb_le in Hage.
    apply andb_true_iff in Hsell as [Hsell Hbuy].
    split; [destruct (side order); [reflexivity | discriminate] | eauto 10].
  - intros (Hbuy & trade & Hin & Hsym & Hsell & Hage).
    exists trade. split.
    + apply list_elem_of_In, list_elem_of_filter. split; [| exact Hin].
      rewrite Hsym. apply Z.leb_le in Hage. rewrite Hage. reflexivity.
    + rewrite Hsell, Hbuy. reflexivity.
Qed.

(** X16.  The wash-sale check depends on the order only through its symbol
    and side: a sell order is never flagged, nor is any order while the log
    is empty, and two buy orders on the same symbol get the same answer
    whatever their quantities and signals. *)
Theorem wash_sale_ignores_all_but_symbol_and_side (self : ComplianceEngine)
    (now : Z) (order : Order) :
  (side order = sell -> is_wash_sale self now order = false)
  /\ (trade_log self = [] -> is_wash_sale self now order = false)
  /\ (forall other, symbol other = symbol order -> side other = side order ->
                    is_wash_sale self now other = is_wash_sale self now order).
Proof.
  split; [| split].
  - intros Hs. apply not_true_is_false. intros H.
    apply is_wash_sale_iff in H as [Hb _]. congruence.
  - intros He. unfold is_wash_sale, recent_trades. rewrite He. reflexivity.
  - intros other Hsym Hside. unfold is_wash_sale, recent_trades.
    rewrite Hsym, Hside. reflexivity.
Qed.

Lemma wash_sale_ignores_all_but_symbol_and_side_witness :
  is_wash_sale init Scenario.T0 (Scenario.order_of 23 sell) = false.
Proof.
  apply (proj1 (wash_sale_ignores_all_but_symbol_and_side init Scenario.T0
                  (Scenario.order_of 23 sell))).
  reflexivity.
Defined.

Lemma timedelta_days_le (now t n : Z) :
  (timedelta_days now t <= n <-> now < t + days (n + 1))%Z.
Proof.
  unfold timedelta_days, days, usec_per_day, usec_per_second.
  change (86400 * 1000000)%Z with 86400000000%Z.
  pose proof (Z.div_mod (now - t) 86400000000 ltac:(lia)) as Hdm.
  pose proof (Z.mod_pos_bound (now - t) 86400000000 ltac:(lia)) as Hmod.
  split; intros H; nia.
Qed.

Variable self : ComplianceEngine.
Variable T : Z.
Variable sold : gmap string pyval.
Variable order : Order.

Hypothesis sold_symbol : sold !! "symbol" = Some (VStr (symbol order)).
Hypothesis sold_side : sold !! "side" = Some (VStr "sell").
Hypothesis order_buys : side order = buy.
Hypothesis no_earlier_sale : never_sold self (symbol order).

(** X17.  After surveillance has logged a sell of the instrument at time
    T, no other sell of it being on record, a buy of it is flagged exactly
    as long as fewer than 31 full days have passed since T: the elapsed
    time is cut down to whole days before it is compared with 30. *)
Theorem wash_sale_window_is_31_days :
  exists logged,
    post_trade_surveillance self T sold = inr logged
    /\ forall now, is_wash_sale logged now order = true <-> (now < T + days 31)%Z.
Proof.
  destruct (surveillance_logs_sale self T sold order sold_symbol)
    as (logged & Hlog & Hnew & Hall).
  exists logged. split; [exact Hlog |]. intros now. split.
  - intros H. apply is_wash_sale_iff in H
      as (_ & trade & Hin & Hsym & Hsell & Hage).
    destruct (Hall trade Hin) as [Hold | [Hts _]].
    + unfold never_sold in no_earlier_sale. rewrite Forall_forall in no_earlier_sale.
      rewrite (no_earlier_sale trade Hold Hsym) in Hsell. discriminate.
    + rewrite Hts in Hage. apply (timedelta_days_le now T 30). exact Hage.
  - intros H.
    apply (flagged_within_window T sold order sold_symbol sold_side order_buys);
      [exact Hnew |].
    apply (timedelta_days_le now T 30). exact H.
Qed.

End WashSaleMore.

Lemma wash_sale_window_is_31_days_witness :
  exists logged,
    Compliance.post_trade_surveillance Compliance.init Scenario.T0 Scenario.sell_X
    = inr logged
    /\ Compliance.is_wash_sale logged
         (Scenario.T0 + Compliance.days 31 - 1) (Scenario.order_of 23 Brokerage.buy)
       = true.
Proof.
  destruct (wash_sale_window_is_31_days Compliance.init Scenario.T0 Scenario.sell_X
              (Scenario.order_of 23 Brokerage.buy))
    as (logged & Hlog & Hiff).
  - reflexivity.
  - reflexivity.
  - reflexivity.
  - constructor.
  - exists logged. split; [exact Hlog |]. apply Hiff. lia.
Defined.

Section RingBuffers.
Import Brokerage Compliance.

Lemma deque_append_room {A} (maxlen : Z) (x : A) (d : list A) :
  (Z.of_nat (length d) < maxlen)%Z -> deque_append maxlen x d = d ++ [x].
Proof.
  intros H. unfold deque_append. rewrite length_app. cbn [length].
  replace (length d + 1 - Z.to_nat maxlen)%nat with 0%nat by lia. reflexivity.
Qed.

Lemma deque_append_full {A} (maxlen : Z) (x oldest : A) (rest : list A) :
  Z.of_nat (length (oldest :: rest)) = maxlen ->
  deque_append maxlen x (oldest :: rest) = rest ++ [x].
Proof.
  intros H. unfold deque_append. rewrite length_app. cbn [length] in *.
  replace (S (length rest) + 1 - Z.to_nat maxlen)%nat with 1%nat by lia.
  reflexivity.
Qed.

Lemma deque_append_length {A} (maxlen : Z) (x : A) (d : list A) :
  length (deque_append maxlen x d) = Nat.min (length d + 1) (Z.to_nat maxlen).
Proof.
  unfold deque_append. rewrite length_drop, length_app. cbn [length]. lia.
Qed.

(** X18.  The trade log is a ring buffer of 10,000 entries: surveillance of
    an execution that names its symbol appends one entry stamped with the
    current time, after dropping the oldest entry when the log is full, and
    touches nothing else; an execution without a 'symbol' key raises
    KeyError before anything is logged. *)
Theorem trade_log_is_ring_buffer (self : ComplianceEngine) (now : Z)
    (execution : gmap string pyval) :
  (execution !! "symbol" = None ->
   post_trade_surveillance self now execution = inl (KeyError "symbol"))
  /\ (forall sym, execution !! "symbol" = Some sym ->
        exists logged,
          post_trade_surveillance self now execution = inr logged
          /\ alerts logged = alerts self
          /\ ((Z.of_nat (length (trade_log self)) < 10000)%Z ->
              trade_log logged = trade_log self ++ [log_entry now execution sym])
          /\ (forall oldest rest,
                trade_log self = oldest :: rest ->
                (Z.of_nat (length (trade_log self)) = 10000)%Z ->
                trade_log logged = rest ++ [log_entry now execution sym])
          /\ ((Z.of_nat (length (trade_log self)) <= 10000)%Z ->
              (Z.of_nat (length (trade_log logged)) <= 10000)%Z)).
Proof.
  unfold post_trade_surveillance. split.
  - intros ->. reflexivity.
  - intros sym ->. eexists. split; [reflexivity |].
    cbn [trade_log alerts]. split; [reflexivity |]. split; [| split].
    + intros H. apply deque_append_room. exact H.
    + intros oldest rest -> H. apply deque_append_full. exact H.
    + intros H. rewrite deque_append_length. lia.
Qed.

Lemma trade_log_is_ring_buffer_witness :
  exists logged,
    post_trade_surveillance init Scenario.T0 Scenario.sell_X = inr logged
    /\ trade_log logged = [log_entry Scenario.T0 Scenario.sell_X (VStr "X")].
Proof.
  destruct (proj2 (trade_log_is_ring_buffer init Scenario.T0 Scenario.sell_X)
              (VStr "X") eq_refl) as (logged & Hlog & _ & Hroom & _).
  exists logged. split; [exact Hlog |]. apply Hroom. cbn. lia.
Defined.

End RingBuffers.

Section SignalHistory.
Import Alpha.

Lemma deque_append_last_n {A} (maxlen : Z) (x : A) (l : list A) :
  deque_append maxlen x (last_n (Z.to_nat maxlen) l)
  = last_n (Z.to_nat maxlen) (l ++ [x]).
Proof.
  unfold deque_append, last_n. generalize (Z.to_nat maxlen). intros k.
  rewrite !length_app, length_drop. cbn [length].
  destruct (Nat.le_gt_cases k (length l)) as [Hge | Hlt].
  - destruct k as [| k].
    + rewrite !Nat.sub_0_r, drop_all. cbn [app].
      rewrite (drop_ge (l ++ [x])) by (rewrite length_app; cbn; lia).
      apply drop_ge. cbn. lia.
    + replace (length l - (length l - S k) + 1 - S k)%nat with 1%nat by lia.
      rewrite (drop_app_le l) by lia.
      rewrite drop_app_le by (rewrite length_drop; lia).
      rewrite drop_drop. f_equal. f_equal. lia.
  - replace (length l - k)%nat with 0%nat by lia.
    replace (length l - 0 + 1 - k)%nat with 0%nat by lia.
    replace (length l + 1 - k)%nat with 0%nat by lia. reflexivity.
Qed.

Variables cm ct : string -> res features.
Variable now : Z.

Lemma computed_signals_cons (sym : string) (rest : list string) :
  computed_signals cm ct now (sym :: rest)
  = match signal_for cm ct now sym with
    | inr s => s :: computed_signals cm ct now rest
    | inl _ => computed_signals cm ct now rest
    end.
Proof.
  unfold computed_signals. cbn [omap list_omap].
  destruct (signal_for cm ct now sym); reflexivity.
Qed.

Lemma history_fold (universe : list string) (st : odict Signal * list Signal)
    (all : list Signal) :
  snd st = last_n (Z.to_nat 1000) all ->
  snd (fold_left (generate_step cm ct now) universe st)
  = last_n (Z.to_nat 1000) (all ++ computed_signals cm ct now universe).
Proof.
  revert st all. induction universe as [| sym rest IH]; intros st all Hst.
  - cbn. rewrite app_nil_r. exact Hst.
  - cbn [fold_left]. rewrite computed_signals_cons.
    unfold generate_step at 2.
    destruct (signal_for cm ct now sym) as [e | s].
    + apply IH. exact Hst.
    + rewrite (cons_middle s), app_assoc.
      apply IH. cbn [snd]. rewrite Hst. apply deque_append_last_n.
Qed.

(** X19.  The signal history is a ring buffer of 1,000 entries: after a
    pass over the universe it holds the 1,000 most recent signals among the
    earlier history followed by the signals just computed, in order, a
    symbol listed twice being recorded twice. *)
Theorem signal_history_keeps_last_thousand (history : list Signal)
    (universe : list string) :
  (Z.of_nat (length history) <= 1000)%Z ->
  snd (generate_signals cm ct now history universe)
  = last_n (Z.to_nat 1000) (history ++ computed_signals cm ct now universe)
  /\ (Z.of_nat (length (snd (generate_signals cm ct now history universe)))
      <= 1000)%Z.
Proof.
  intros Hlen.
  assert (Heq : snd (generate_signals cm ct now history universe)
                = last_n (Z.to_nat 1000)
                    (history ++ computed_signals cm ct now universe)).
  { unfold generate_signals. apply history_fold. cbn [snd]. unfold last_n.
    replace (length history - Z.to_nat 1000)%nat with 0%nat by lia. reflexivity. }
  split; [exact Heq |]. rewrite Heq. unfold last_n. rewrite length_drop. lia.
Qed.

End SignalHistory.

Lemma signal_history_keeps_last_thousand_witness :
  snd (Alpha.generate_signals (fun _ => inr ∅) (fun _ => inr {[ "rsi" := Fin 20 ]})
         0 [] ["X"; "X"])
  = Alpha.last_n (Z.to_nat 1000)
      ([] ++ Alpha.computed_signals (fun _ => inr ∅)
               (fun _ => inr {[ "rsi" := Fin 20 ]}) 0 ["X"; "X"]).
Proof.
  apply (signal_history_keeps_last_thousand (fun _ => inr ∅)
           (fun _ => inr {[ "rsi" := Fin 20 ]}) 0 [] ["X"; "X"]).
  cbn. lia.
Defined.

(** * Properties of the trading cycle *)

Section Cycle.
Import Brokerage Compliance Orchestrator.

Lemma result_dict_has_no_symbol (r : Execution.ExecutionResult) :
  result_dict r !! "symbol" = None.
Proof.
  unfold result_dict.
  destruct r as [id strategy [limit |] | chunks results | error];
    vm_compute; reflexivity.
Qed.

Lemma execute_order_returns (exec : Execution.ExecutionEngine) (order : Order)
    (w : Execution.World) :
  exists r w', Execution.execute_order exec order w = (inr r, w').
Proof.
  unfold Execution.execute_order, Execution.try_except.
  destruct (Execution.run_strategy exec order w) as [[e | r] w']; eauto.
Qed.

(** X20.  Surveillance cannot log what the execution engine returns: none
    of the result dicts of [execute_order] has a 'symbol' key, so
    [post_trade_surveillance] raises KeyError on each of them and the trade
    log stays as it was. *)
Theorem surveillance_rejects_engine_results (exec : Execution.ExecutionEngine)
    (order : Order) (w : Execution.World) (self : ComplianceEngine) (now : Z) :
  exists r w',
    Execution.execute_order exec order w = (inr r, w')
    /\ post_trade_surveillance self now (result_dict r) = inl (KeyError "symbol").
Proof.
  destruct (execute_order_returns exec order w) as (r & w' & Hrun).
  exists r, w'. split; [exact Hrun |].
  unfold post_trade_surveillance. rewrite result_dict_has_no_symbol. reflexivity.
Qed.

Variable self : TradingOrchestrator.
Variable paper_account : res Account.
Variable now : Z.

Lemma run_orders_keeps_compliance (orders : list Order) (w : Execution.World)
    (c : ComplianceEngine) :
  snd (run_orders self paper_account now orders w c) = c.
Proof.
  revert w. induction orders as [| order rest IH]; intros w; cbn [run_orders].
  - reflexivity.
  - destruct (pre_trade_check c paper_account now order) as [e | [passed v]];
      [reflexivity |].
    destruct passed; cbn [negb]; [| apply IH].
    destruct (trading_enabled self); [| apply IH].
    destruct (Execution.execute_order _ _ _) as [[e | r] w1]; [reflexivity |].
    unfold post_trade_surveillance. rewrite result_dict_has_no_symbol. reflexivity.
Qed.


(** X22.  A trading cycle never changes the compliance engine: whatever
    the signals, the brokerage answers and the orders, the trade log after
    [run_trading_cycle] is the trade log before it. *)
Theorem cycle_never_logs_a_trade
    (generate : list Alpha.Signal -> list string
                -> odict Alpha.Signal * list Alpha.Signal)
    (daily_vol : Q) (st : CycleState) :
  compliance_engine (run_trading_cycle self paper_account now generate daily_vol st)
  = compliance_engine st.
Proof.
  unfold run_trading_cycle.
  destruct (generate _ _) as [signals history].
  destruct (rbind _ _) as [e | orders]; [reflexivity |].
  pose proof (run_orders_keeps_compliance orders (world st) (compliance_engine st)) as H.
  destruct (run_orders _ _ _ _ _ _) as [[[e | u] w] c]; cbn [snd] in H; subst c;
    reflexivity.
Qed.

End Cycle.


Section MarketHours.
Import Compliance.

Lemma replace_hms_le (t h m s : Z) :
  (0 <= h * 3600 + m * 60 + s < 86400)%Z ->
  ((replace_hms t h m s <=? t)%Z = (h * 3600 + m * 60 + s <=? second_of_day t)%Z)
  /\ ((t <=? replace_hms t h m s)%Z = (second_of_day t <=? h * 3600 + m * 60 + s)%Z).
Proof.
  intros Hr. unfold replace_hms, second_of_day, usec_per_day, usec_per_second.
  change (86400 * 1000000)%Z with 86400000000%Z.
  generalize (h * 3600 + m * 60 + s)%Z Hr. clear Hr. intros k Hk.
  pose proof (Z.div_mod t 86400000000 ltac:(lia)) as Hd.
  pose proof (Z.mod_pos_bound t 86400000000 ltac:(lia)) as Hdb.
  pose proof (Z.div_mod (t mod 86400000000) 1000000 ltac:(lia)) as Hs.
  pose proof (Z.mod_pos_bound (t mod 86400000000) 1000000 ltac:(lia)) as Hsb.
  assert (Hus : (t mod 1000000 = (t mod 86400000000) mod 1000000)%Z).
  { symmetry. apply Z.mod_mod_divide. exists 86400%Z. reflexivity. }
  split.
  - destruct (Z.leb_spec (t / 86400000000 * 86400000000 + k * 1000000 + t mod 1000000) t);
      destruct (Z.leb_spec k (t mod 86400000000 / 1000000)); try reflexivity; lia.
  - destruct (Z.leb_spec t (t / 86400000000 * 86400000000 + k * 1000000 + t mod 1000000));
      destruct (Z.leb_spec (t mod 86400000000 / 1000000) k); try reflexivity; lia.
Qed.

(** X23.  The compliance engine counts as regular market hours every
    instant of a weekday from 09:30:00 up to the end of the second
    16:00:00, the orchestrator's trading window every instant of a weekday
    from 04:00:00 up to the end of the second 20:00:00: replacing hour,
    minute and second keeps the microseconds of the current time, so the
    closing second is inside in full. *)
Theorem market_hours_by_the_second (now : Z) :
  (is_market_hours now = true
   <-> (weekday now < 5 /\ 34200 <= second_of_day now <= 57600)%Z)
  /\ (Orchestrator.is_market_hours now = true
      <-> (weekday now < 5 /\ 14400 <= second_of_day now <= 72000)%Z).
Proof.
  unfold is_market_hours, Orchestrator.is_market_hours. cbv zeta.
  destruct (replace_hms_le now 9 30 0 ltac:(lia)) as [-> _].
  destruct (replace_hms_le now 16 0 0 ltac:(lia)) as [_ ->].
  destruct (replace_hms_le now 4 0 0 ltac:(lia)) as [-> _].
  destruct (replace_hms_le now 20 0 0 ltac:(lia)) as [_ ->].
  rewrite !andb_true_iff, !Z.leb_le, !Z.ltb_lt. cbn. split; split; lia.
Qed.

Lemma market_hours_by_the_second_witness :
  is_market_hours (days 19002 + (16 * 3600) * 1000000 + 999999) = true.
Proof.
  apply (proj1 (market_hours_by_the_second _)).
  vm_compute. repeat split; discriminate.
Defined.

End MarketHours.

(** * Portfolio risk metrics *)

Section PortfolioRiskBounds.
Import Brokerage Risk.

Lemma fold_Qplus_acc (l : list Q) (a : Q) :
  fold_left Qplus l a == a + Alpha.Qsum l.
Proof.
  unfold Alpha.Qsum. revert a. induction l as [| x l IH]; intros a; cbn.
  - lra.
  - rewrite (IH (a + x)), (IH (0 + x)). lra.
Qed.

Lemma Qsum_cons (x : Q) (l : list Q) : Alpha.Qsum (x :: l) == x + Alpha.Qsum l.
Proof. unfold Alpha.Qsum at 1. cbn. rewrite fold_Qplus_acc. lra. Qed.

Lemma Qsum_app_one (l : list Q) (x : Q) : Alpha.Qsum (l ++ [x]) == Alpha.Qsum l + x.
Proof.
  induction l as [| y l IH]; cbn [app].
  - rewrite Qsum_cons. unfold Alpha.Qsum. cbn. lra.
  - rewrite !Qsum_cons, IH. lra.
Qed.

Lemma abs_total_nonneg (d : odict Q) : 0 <= abs_total d.
Proof.
  unfold abs_total. apply Qsum_nonneg. apply Forall_forall. intros x Hx.
  apply list_elem_of_fmap in Hx as (kv & -> & _). apply Qabs_nonneg.
Qed.

Lemma abs_total_set (k : string) (v : Q) (d : odict Q) :
  abs_total (odict_set k v d) <= abs_total d + Qabs v.
Proof.
  unfold abs_total. induction d as [| [k0 v0] d IH]; cbn [odict_set map snd].
  - rewrite Qsum_cons. unfold Alpha.Qsum. cbn. lra.
  - destruct (String.eqb k k0); cbn [map snd].
    + rewrite !Qsum_cons. pose proof (Qabs_nonneg v0). lra.
    + rewrite !Qsum_cons. lra.
Qed.

Lemma position_values_total (positions : list Position) (d : odict Q) (t : Q) :
  abs_total d <= t ->
  abs_total (fold_left (fun d p => odict_set (pos_symbol p) (market_value p) d)
                       positions d)
  <= fold_left (fun t p => t + Qabs (market_value p)) positions t
  /\ t <= fold_left (fun t p => t + Qabs (market_value p)) positions t.
Proof.
  revert d t. induction positions as [| p rest IH]; intros d t Hd; cbn [fold_left].
  - split; [exact Hd | lra].
  - destruct (IH (odict_set (pos_symbol p) (market_value p) d)
                 (t + Qabs (market_value p))) as [H1 H2].
    + pose proof (abs_total_set (pos_symbol p) (market_value p) d). lra.
    + split; [exact H1 |]. pose proof (Qabs_nonneg (market_value p)). lra.
Qed.

Lemma squares_below_square (ws : list Q) :
  Forall (Qle 0) ws ->
  Alpha.Qsum (map (fun w => w ^ 2) ws) <= Alpha.Qsum ws * Alpha.Qsum ws.
Proof.
  intros Hws. induction Hws as [| w ws Hw Hws IH]; cbn [map].
  - unfold Alpha.Qsum. cbn. lra.
  - rewrite !Qsum_cons. pose proof (Qsum_nonneg ws Hws) as Hs.
    assert (Hp : 0 <= w * Alpha.Qsum ws) by (apply Qmult_le_0_compat; assumption).
    assert (Hsq : w ^ 2 == w * w) by reflexivity.
    rewrite Hsq. lra.
Qed.

Lemma weights_sum (total : Q) (d : odict Q) :
  ~ total == 0 ->
  Alpha.Qsum (map (fun kv => Qabs (snd kv) / total) d) == abs_total d / total.
Proof.
  intros Ht. unfold abs_total. induction d as [| kv d IH]; cbn [map].
  - unfold Alpha.Qsum. cbn. field. exact Ht.
  - rewrite !Qsum_cons, IH. field. exact Ht.
Qed.

Lemma herfindahl_bounds (total : Q) (d : odict Q) :
  0 < total -> abs_total d <= total ->
  0 <= Alpha.Qsum (map (fun kv => (Qabs (snd kv) / total) ^ 2) d) <= 1.
Proof.
  intros Ht Hd.
  assert (Hmap : map (fun kv : string * Q => (Qabs (snd kv) / total) ^ 2) d
                 = map (fun w => w ^ 2) (map (fun kv => Qabs (snd kv) / total) d)).
  { rewrite List.map_map. reflexivity. }
  rewrite Hmap.
  assert (Hws : Forall (Qle 0) (map (fun kv : string * Q => Qabs (snd kv) / total) d)).
  { apply Forall_forall. intros x Hx. apply list_elem_of_fmap in Hx as (kv & -> & _).
    apply Qle_shift_div_l; [exact Ht |]. rewrite Qmult_0_l. apply Qabs_nonneg. }
  split.
  - apply Qsum_nonneg. apply Forall_forall. intros x Hx.
    apply list_elem_of_fmap in Hx as (w & -> & _).
    assert (Hsq : w ^ 2 == w * w) by reflexivity. rewrite Hsq.
    destruct (Qlt_le_dec w 0) as [Hneg | Hpos].
    + assert (0 <= (- w) * (- w)) by (apply Qmult_le_0_compat; lra). lra.
    + apply Qmult_le_0_compat; assumption.
  - eapply Qle_trans; [apply squares_below_square; exact Hws |].
    pose proof (Qsum_nonneg _ Hws) as H0.
    assert (H1 : Alpha.Qsum (map (fun kv : string * Q => Qabs (snd kv) / total) d) <= 1).
    { rewrite weights_sum by lra. apply Qle_shift_div_r; [exact Ht | lra]. }
    revert H0 H1. generalize (Alpha.Qsum (map (fun kv : string * Q => Qabs (snd kv) / total) d)).
    intros s H0 H1.
    assert (s * s <= 1 * s) by (apply Qmult_le_compat_r; assumption). lra.
Qed.

(** X24.  Whenever [calculate_portfolio_risk] returns, the concentration
    index lies between 0 and 1 and the value-at-risk figures keep the fixed
    ratios 1.645 : 2.326 : 2.665; with an account of positive equity the
    leverage is not negative; with no open position leverage, concentration
    and value at risk are 0. *)
Theorem portfolio_risk_bounds (daily_vol : Q) (self : RiskManagementEngine)
    (risk_metrics : RiskMetrics) :
  calculate_portfolio_risk daily_vol self = inr risk_metrics ->
  0 <= concentration_risk risk_metrics <= 1
  /\ var_95 risk_metrics * 2.326 == var_99 risk_metrics * 1.645
  /\ var_99 risk_metrics * 2.665 == expected_shortfall risk_metrics * 2.326
  /\ (forall account, get_account (trading_client self) = inr account ->
                      0 < equity account -> 0 <= current_leverage risk_metrics)
  /\ (get_all_positions (trading_client self) = inr [] ->
      current_leverage risk_metrics = 0 /\ concentration_risk risk_metrics = 0
      /\ var_99 risk_metrics = 0).
Proof.
  unfold calculate_portfolio_risk, rbind.
  destruct (get_all_positions (trading_client self)) as [e | positions]; [discriminate |].
  destruct positions as [| p rest].
  { intros [= <-]. cbn. repeat split; try lra; try reflexivity. intros; lra. }
  destruct (position_values_total (p :: rest) [] 0) as [Hpv Ht].
  { unfold abs_total, Alpha.Qsum. cbn. lra. }
  revert Hpv Ht.
  generalize (fold_left (fun d p0 => odict_set (pos_symbol p0) (market_value p0) d)
                        (p :: rest) []).
  generalize (fold_left (fun t p0 => t + Qabs (market_value p0)) (p :: rest) 0).
  intros total pv Hpv Ht.
  destruct (get_account (trading_client self)) as [e | account]; [discriminate |].
  unfold fdiv. destruct (Qeq_bool (equity account) 0) eqn:Hz; [discriminate |].
  intros [= <-]. cbn [concentration_risk var_95 var_99 expected_shortfall
                        current_leverage].
  split; [| split; [ring | split; [ring | split]]].
  - destruct (Qgtb total 0) eqn:Hpos; [| lra].
    apply Qltb_lt in Hpos. apply herfindahl_bounds; assumption.
  - intros account' [= <-] Heq. apply Qle_shift_div_l; [exact Heq | lra].
  - discriminate.
Qed.

Lemma portfolio_risk_bounds_witness :
  exists risk_metrics,
    calculate_portfolio_risk 0.01 (init Scenario.invested_client) = inr risk_metrics
    /\ 0 <= concentration_risk risk_metrics <= 1.
Proof.
  eexists. split; [vm_compute; reflexivity |].
  apply (fun H => proj1 (portfolio_risk_bounds 0.01 (init Scenario.invested_client) _ H)).
  vm_compute. reflexivity.
Defined.

Example portfolio_risk_example :
  match calculate_portfolio_risk 0.01 (init Scenario.invested_client) with
  | inr rm => concentration_risk rm == 0.625 /\ current_leverage rm == 0.4
  | inl _ => False
  end.
Proof. vm_compute. split; reflexivity. Qed.

(** X25.  [optimize_portfolio] gives up with the brokerage's own exception
    when the position listing fails, and with ZeroDivisionError when
    positions are open on an account whose equity is 0; in neither case is
    any order returned. *)
Theorem optimize_portfolio_failures (daily_vol : Q) (self : RiskManagementEngine)
    (signals : odict Alpha.Signal) (account : Account) :
  get_account (trading_client self) = inr account ->
  (forall e, get_all_positions (trading_client self) = inl e ->
             optimize_portfolio daily_vol self signals = inl e)
  /\ (forall p rest, get_all_positions (trading_client self) = inr (p :: rest) ->
                     equity account == 0 ->
                     optimize_portfolio daily_vol self signals = inl ZeroDivisionError).
Proof.
  intros Hacc. unfold optimize_portfolio, calculate_portfolio_risk.
  rewrite Hacc. cbn [rbind]. split.
  - intros e ->. reflexivity.
  - intros p rest -> Hz. cbn [rbind].
    unfold fdiv. apply Qeq_bool_iff in Hz. rewrite Hz. reflexivity.
Qed.

Lemma optimize_portfolio_failures_witness :
  optimize_portfolio 0.01 (init Scenario.blind_client) Scenario.signals
  = inl (BrokerError "positions unavailable").
Proof.
  apply (proj1 (optimize_portfolio_failures 0.01 (init Scenario.blind_client)
                  Scenario.signals Scenario.account eq_refl)).
  reflexivity.
Defined.

End PortfolioRiskBounds.

Section PreTradeCheck.
Import Brokerage Compliance.



End PreTradeCheck.

(** * Order sizes *)

Section OrderSizes.
Import Brokerage Risk.

(** Above the confidence gate the Kelly fraction is the cap itself. *)
Lemma kelly_at_cap (expected_return confidence : Q) :
  0 < expected_return -> 0.6 < confidence ->
  calculate_kelly_fraction expected_return confidence = 0.1.
Proof.
  intros He Hc. unfold calculate_kelly_fraction, Qleb, max2, min2, Qgtb.
  destruct (Qle_bool expected_return 0) eqn:E1.
  { apply Qle_bool_iff in E1. lra. }
  destruct (Qle_bool confidence 0.5) eqn:E2.
  { apply Qle_bool_iff in E2. lra. }
  cbn [orb]. cbv zeta.
  assert (Hk : 0.4 < confidence - (1 - confidence) / 2.0)
    by (rewrite kelly_value; lra).
  revert Hk. generalize (confidence - (1 - confidence) / 2.0). intros k Hk.
  assert (E3 : Qltb 0.1 (k * 0.25) = true) by (apply Qltb_lt; lra).
  rewrite E3. reflexivity.
Qed.

Variable self : RiskManagementEngine.

Lemma size_signal_alike (buying_power portfolio_value : Q) (sym : string)
    (sg sg' : Alpha.Signal) :
  Alpha.sig_direction sg = Alpha.sig_direction sg' ->
  0.6 < Alpha.sig_confidence sg -> 0 < Alpha.sig_expected_return sg ->
  0.6 < Alpha.sig_confidence sg' -> 0 < Alpha.sig_expected_return sg' ->
  alike (size_signal self buying_power portfolio_value sym sg)
        (size_signal self buying_power portfolio_value sym sg').
Proof.
  intros Hdir Hc He Hc' He'. unfold size_signal. rewrite <- Hdir.
  rewrite (kelly_at_cap _ _ He Hc), (kelly_at_cap _ _ He' Hc').
  destruct (Alpha.sig_direction sg =? 0)%Z; [constructor |]. cbv zeta.
  destruct (Qgtb _ 100); [| constructor].
  destruct (fdiv _ _) as [e | ratio]; cbn [rbind alike]; [reflexivity |].
  destruct (0 <? int ratio)%Z; [| constructor].
  constructor; [| constructor]. unfold same_terms. cbn. auto.
Qed.

Lemma same_terms_refl (o : Order) : same_terms o o.
Proof. unfold same_terms. auto. Qed.

Lemma alike_refl (a : res (list Order)) : alike a a.
Proof.
  destruct a as [e | orders]; cbn; [reflexivity |].
  induction orders; constructor; [apply same_terms_refl | assumption].
Qed.

Lemma size_signals_alike (buying_power portfolio_value : Q)
    (signals signals' : odict Alpha.Signal) :
  same_but_strength signals signals' ->
  Forall (fun kv => 0.6 < Alpha.sig_confidence (snd kv)) signals ->
  Forall (fun kv => 0.6 < Alpha.sig_confidence (snd kv)) signals' ->
  forall orders orders',
    Forall2 same_terms orders orders' ->
    alike (size_signals self buying_power portfolio_value signals orders)
          (size_signals self buying_power portfolio_value signals' orders').
Proof.
  unfold same_but_strength.
  induction 1 as [| [sym sg] [sym' sg'] rest rest' (Hsym & Hdir & Hsg) Hrest IH];
    intros Hgate Hgate' orders orders' Hacc.
  - exact Hacc.
  - cbn [fst snd] in Hsym, Hdir, Hsg. subst sym'.
    apply Forall_cons in Hgate as [Hc Hgate].
    apply Forall_cons in Hgate' as [Hc' Hgate']. cbn [snd] in Hc, Hc'.
    cbn [size_signals].
    assert (Hstep : alike (size_signal self buying_power portfolio_value sym sg)
                          (size_signal self buying_power portfolio_value sym sg')).
    { destruct Hsg as [-> | (_ & He & _ & He')]; [apply alike_refl |].
      apply size_signal_alike; assumption. }
    destruct (size_signal self buying_power portfolio_value sym sg) as [e | new];
      destruct (size_signal self buying_power portfolio_value sym sg') as [e' | new'];
      cbn [alike] in Hstep; try contradiction; cbn [rbind].
    + exact Hstep.
    + apply IH; [assumption | assumption |].
      apply Forall2_app; assumption.
Qed.

Lemma constraints_alike (orders orders' : list Order) (risk_metrics : RiskMetrics) :
  Forall2 same_terms orders orders' ->
  Forall2 same_terms (apply_risk_constraints self orders risk_metrics)
                     (apply_risk_constraints self orders' risk_metrics).
Proof.
  intros H. unfold apply_risk_constraints. cbv zeta.
  apply Forall2_filter.
  { intros o o' (_ & Hq & _). rewrite Hq. reflexivity. }
  assert (Hscaled : Forall2 same_terms
            (map (fun order =>
                    set_quantity order (int (inject_Z (quantity order) * 0.5))) orders)
            (map (fun order =>
                    set_quantity order (int (inject_Z (quantity order) * 0.5))) orders')).
  { apply Forall2_fmap. eapply Forall2_impl; [exact H |].
    intros o o' (Hs & Hq & Hsd & Ht & Htif). unfold same_terms. cbn.
    rewrite Hq. auto. }
  destruct (Qgtb (current_leverage risk_metrics) _);
    destruct (Qgtb (concentration_risk risk_metrics) _);
    try apply Forall2_take; assumption.
Qed.

Lemma optimize_portfolio_alike (daily_vol : Q) (signals signals' : odict Alpha.Signal) :
  same_but_strength signals signals' ->
  alike (optimize_portfolio daily_vol self signals)
        (optimize_portfolio daily_vol self signals').
Proof.
  intros Hsame. unfold optimize_portfolio.
  destruct (get_account (trading_client self)) as [e | account];
    cbn [rbind alike]; [reflexivity |].
  destruct (calculate_portfolio_risk daily_vol self) as [e | rm];
    cbn [rbind alike]; [reflexivity |].
  set (gate := fun kv : string * Alpha.Signal =>
                 Qgtb (Alpha.sig_confidence (snd kv)) 0.6 = true).
  assert (Hgated : forall l, Forall (fun kv => 0.6 < Alpha.sig_confidence (snd kv))
                                    (filter gate l)).
  { intros l. apply Forall_forall. intros kv Hin.
    apply list_elem_of_filter in Hin as [Hc _]. apply Qltb_lt. exact Hc. }
  assert (Hfiltered : same_but_strength (filter gate signals) (filter gate signals')).
  { unfold same_but_strength in *. apply Forall2_filter; [| exact Hsame].
    intros kv kv' (_ & _ & Hsg). unfold gate, Qgtb.
    destruct Hsg as [-> | (Hc & _ & Hc' & _)]; [reflexivity |].
    rewrite !Qltb_lt. tauto. }
  pose proof (size_signals_alike (buying_power account) (equity account) _ _
                Hfiltered (Hgated _) (Hgated _) [] [] ltac:(constructor)) as Hsized.
  destruct (size_signals self _ _ (filter gate signals) []) as [e | orders];
    destruct (size_signals self _ _ (filter gate signals') []) as [e' | orders'];
    cbn [alike] in Hsized; try contradiction; cbn [rbind alike].
  - exact Hsized.
  - apply constraints_alike. exact Hsized.
Qed.

(** X27.  The orders do not depend on how strong the signals are.  Two
    signal dicts with the same keys in the same order and the same
    directions, whose signals differ only where both have a confidence above
    the 0.6 gate and a positive expected return, make [optimize_portfolio]
    fail with the same exception or return two order lists that agree order
    by order on symbol, quantity, side, type and time in force: above the
    gate the Kelly fraction is always the 0.1 cap. *)
Theorem order_size_ignores_signal_strength (daily_vol : Q)
    (signals signals' : odict Alpha.Signal) :
  same_but_strength signals signals' ->
  (forall orders,
      optimize_portfolio daily_vol self signals = inr orders ->
      exists orders',
        optimize_portfolio daily_vol self signals' = inr orders'
        /\ Forall2 same_terms orders orders')
  /\ (forall e,
        optimize_portfolio daily_vol self signals = inl e ->
        optimize_portfolio daily_vol self signals' = inl e).
Proof.
  intros Hsame.
  pose proof (optimize_portfolio_alike daily_vol signals signals' Hsame) as H.
  destruct (optimize_portfolio daily_vol self signals) as [e | orders];
    destruct (optimize_portfolio daily_vol self signals') as [e' | orders'];
    cbn [alike] in H; try contradiction; split.
  - intros orders [=].
  - intros e0 [= <-]. rewrite H. reflexivity.
  - intros orders0 [= <-]. exists orders'. split; [reflexivity | exact H].
  - intros e [=].
Qed.

End OrderSizes.

Lemma order_size_ignores_signal_strength_witness :
  exists orders',
    Risk.optimize_portfolio 0.01 (Risk.init Scenario.client)
      [("X", Scenario.faint_X)] = inr orders'
    /\ Forall2 Risk.same_terms
         [ {| Risk.symbol := "X"; Risk.quantity := 100; Risk.side := Brokerage.buy;
              Risk.type := "limit"; Risk.time_in_force := "day";
              Risk.signal := Scenario.signal_X |} ]
         orders'.
Proof.
  apply (proj1 (order_size_ignores_signal_strength (Risk.init Scenario.client) 0.01
                  [("X", Scenario.signal_X)] [("X", Scenario.faint_X)]
                  ltac:(repeat constructor; right; cbn; repeat split; reflexivity))).
  vm_compute. reflexivity.
Defined.


(** * Band position *)

Section BandPosition.
Import Alpha.

Variable sqrt : Q -> Q.

Lemma drop_repeat {A} (x : A) (n k : nat) : drop k (repeat x n) = repeat x (n - k).
Proof.
  revert k. induction n as [| n IH]; intros k; cbn.
  - destruct k; reflexivity.
  - destruct k; cbn; [reflexivity | apply IH].
Qed.

Lemma Qsum_repeat (x : Q) (n : nat) :
  Alpha.Qsum (repeat x n) == inject_Z (Z.of_nat n) * x.
Proof.
  induction n as [| n IH].
  - change (Alpha.Qsum (repeat x 0)) with 0.
    change (inject_Z (Z.of_nat 0)) with 0. lra.
  - cbn [repeat]. rewrite Qsum_cons, IH, Nat2Z.inj_succ, <- Z.add_1_r, inject_Z_plus.
    change (inject_Z 1) with 1. lra.
Qed.

Lemma last_repeat (x d : Q) (n : nat) : (0 < n)%nat -> List.last (repeat x n) d = x.
Proof.
  induction n as [| n IH]; [lia |]. intros _. destruct n as [| n]; [reflexivity |].
  change (repeat x (S (S n))) with (x :: repeat x (S n)).
  change (List.last (x :: repeat x (S n)) d) with (List.last (repeat x (S n)) d).
  apply IH. lia.
Qed.

(** X28.  For a period of at least 1 the band position is either NaN or a
    finite number between 0 and 1, and NaN does occur: on a constant price
    series long enough for the window the deviation is 0, the bands
    coincide, the position is 0/0 and clipping leaves NaN in place. *)
Theorem band_position_range_and_flat_series (prices : list Q) (period : nat) :
  ((0 < period)%nat ->
   calculate_bollinger_position sqrt prices period = NaN
   \/ exists q, calculate_bollinger_position sqrt prices period = Fin q
                /\ 0 <= q <= 1)
  /\ (forall c n,
        (forall x, x == 0 -> sqrt x == 0) ->
        prices = repeat c n -> (2 <= period <= n)%nat ->
        calculate_bollinger_position sqrt prices period = NaN).
Proof.
  split.
  - intros _. unfold calculate_bollinger_position.
    destruct (length prices <? period)%nat;
      [right; exists 0.5; split; [reflexivity | lra] |].
    cbv zeta. destruct (fdivide _ _) as [x | | |]; cbn [fclip].
    + right. eexists. split; [reflexivity |]. qcases; lra.
    + right. eexists. split; [reflexivity | lra].
    + right. eexists. split; [reflexivity | lra].
    + left. reflexivity.
  - intros c n Hsqrt -> [Hp Hn]. unfold calculate_bollinger_position.
    rewrite repeat_length.
    assert (Hlt : (n <? period)%nat = false) by (apply Nat.ltb_ge; lia).
    rewrite Hlt. cbv zeta.
    unfold rolling_mean_last, rolling_std_last. rewrite repeat_length, Hlt.
    assert (H0 : (period =? 0)%nat = false) by (apply Nat.eqb_neq; lia).
    assert (H1 : (period <=? 1)%nat = false) by (apply Nat.leb_gt; lia).
    rewrite H0, H1. cbn [orb].
    unfold last_n. rewrite repeat_length, drop_repeat.
    replace (n - (n - period))%nat with period by lia.
    rewrite last_repeat by lia.
    set (p := inject_Z (Z.of_nat period)).
    assert (Hppos : 2 <= p).
    { unfold p. change 2 with (inject_Z 2). rewrite <- Zle_Qle. lia. }
    set (sma := Alpha.Qsum (repeat c period) / p).
    assert (Hsma : sma == c).
    { unfold sma. rewrite Qsum_repeat. fold p. field. lra. }
    set (var := Alpha.Qsum (map (fun x : Q => (x - sma) ^ 2) (repeat c period)) / (p - 1)).
    assert (Hvar : var == 0).
    { unfold var. rewrite map_repeat, Qsum_repeat. fold p.
      assert (Hsq : (c - sma) ^ 2 == 0).
      { assert (E : (c - sma) ^ 2 == (c - sma) * (c - sma)) by reflexivity.
        rewrite E, Hsma. ring. }
      rewrite Hsq. field. lra. }
    pose proof (Hsqrt var Hvar) as Hsd. revert Hsd. generalize (sqrt var). intros sd Hsd.
    cbn [fscale fadd fsub fneg fdivide].
    assert (Hden : Qeq_bool (sma + sd * 2 + - (sma + - (sd * 2))) 0 = true)
      by (apply Qeq_bool_iff; lra).
    assert (Hnum : Qeq_bool (c + - (sma + - (sd * 2))) 0 = true)
      by (apply Qeq_bool_iff; lra).
    rewrite Hden, Hnum. reflexivity.
Qed.

End BandPosition.

Lemma band_position_range_and_flat_series_witness :
  Alpha.calculate_bollinger_position (fun x => x) (repeat 10 25) 20 = NaN.
Proof.
  apply (proj2 (band_position_range_and_flat_series (fun x => x) (repeat 10 25) 20)
           10 25%nat).
  - intros x H. exact H.
  - reflexivity.
  - lia.
Defined.
